(** * Pick-and-place scenario of the KUKA extension: model and properties

    Shallow embedding of [Kuka_updated/scenario.py] (class [ExampleScenario])
    and of the part of [ui_builder.py] (class [UIBuilder]) that drives it.

    Modelling conventions.
    - A Python [float] and a numpy [float64] are idealised as a real number
      ([R]); rounding, infinities and NaN are outside the model.  [np.cos] and
      [np.pi] are [cos] and [PI].
    - A one-dimensional numpy array is a [list R].  Binary operations on two
      arrays follow numpy's broadcasting rule for shapes [(n,)] and [(m,)] and
      raise when the shapes are incompatible.
    - A Python attribute that may hold [None] is an [option].
    - A raised exception is [None] (for methods that do not mutate [self]) or
      the outcome [Raised] next to the state as mutated so far.
    - Calls into the host simulator ([print], [set_joint_positions],
      [apply_action], [set_world_pose]) are recorded as a list of events; what
      the host returns from [get_joint_positions] during one physics callback
      is an argument of the method. *)

From Stdlib Require Import String.
From Stdlib Require Import Reals Lra ZArith Bool Lia List.
Import ListNotations.

Open Scope R_scope.

(** ** Option as the exception monad *)

Definition bind {A B : Type} (m : option A) (k : A -> option B) : option B :=
  match m with
  | Some a => k a
  | None => None
  end.

Notation "'let?' x ':=' m 'in' k" := (bind m (fun x => k))
  (at level 10, x name, m at level 100, k at level 200).

(** ** numpy arrays of shape [(n,)] *)

Module Np.

Definition ndarray := list R.

(** [np.zeros(n)] *)
Definition zeros (n : nat) : ndarray := repeat 0 n.

Fixpoint zip_with (f : R -> R -> R) (a b : ndarray) : ndarray :=
  match a, b with
  | x :: a', y :: b' => f x y :: zip_with f a' b'
  | _, _ => []
  end.

(** A binary ufunc on two arrays.  Equal shapes combine elementwise, a shape
    [(1,)] is stretched to the other one, anything else is a [ValueError]. *)
Definition broadcast (f : R -> R -> R) (a b : ndarray) : option ndarray :=
  if Nat.eqb (length a) (length b) then Some (zip_with f a b)
  else match a, b with
       | [x], _ => Some (map (f x) b)
       | _, [y] => Some (map (fun x => f x y) a)
       | _, _ => None
       end.

Definition add : ndarray -> ndarray -> option ndarray := broadcast Rplus.
Definition sub : ndarray -> ndarray -> option ndarray := broadcast Rminus.

(** array [*] scalar and array [/] scalar *)
Definition mul_scalar (a : ndarray) (k : R) : ndarray := map (fun x => x * k) a.
Definition div_scalar (a : ndarray) (k : R) : ndarray := map (fun x => x / k) a.

(** [np.clip(a, lo, hi)] is [minimum(maximum(a, lo), hi)] *)
Definition clip (a : ndarray) (lo hi : R) : ndarray :=
  map (fun x => Rmin (Rmax x lo) hi) a.

End Np.

(** ** Host objects and host calls *)

(** The articulation handle; [num_dof] is all the scenario reads from it
    besides the joint positions, which vary from callback to callback. *)
Record Articulation := { num_dof : nat }.

(** The tracked prim; [get_world_pose()[0]] is its position. *)
Record Cuboid := { world_position : Np.ndarray }.

Inductive Event :=
| EPrint (msg : string)
| ESetJointPositions (positions : Np.ndarray)
| EApplyAction (joint_positions joint_velocities : Np.ndarray)
| ESetWorldPose (position : Np.ndarray).

Inductive Outcome := Returned | Raised.

(** ** [ExampleScenario] *)

Module ExampleScenario.

Record t := mk {
  _object : option Cuboid;
  _articulation : option Articulation;
  _running_scenario : bool;
  _time : R;
  _phase : Z;
  _phase_time : R;
  _phase_duration : R;
  _home_position : option Np.ndarray;
  _pre_grasp_position : option Np.ndarray;
  _grasp_position : option Np.ndarray;
  _lift_position : option Np.ndarray;
  _place_position : option Np.ndarray;
  _cube_grasped : bool;
  _initial_cube_position : option Np.ndarray
}.

(** Attribute assignments used by [update_scenario]. *)

Definition set_running_scenario (b : bool) (s : t) : t :=
  mk (_object s) (_articulation s) b (_time s) (_phase s) (_phase_time s)
     (_phase_duration s) (_home_position s) (_pre_grasp_position s)
     (_grasp_position s) (_lift_position s) (_place_position s)
     (_cube_grasped s) (_initial_cube_position s).

Definition set_time (x : R) (s : t) : t :=
  mk (_object s) (_articulation s) (_running_scenario s) x (_phase s)
     (_phase_time s) (_phase_duration s) (_home_position s)
     (_pre_grasp_position s) (_grasp_position s) (_lift_position s)
     (_place_position s) (_cube_grasped s) (_initial_cube_position s).

Definition set_phase (p : Z) (s : t) : t :=
  mk (_object s) (_articulation s) (_running_scenario s) (_time s) p
     (_phase_time s) (_phase_duration s) (_home_position s)
     (_pre_grasp_position s) (_grasp_position s) (_lift_position s)
     (_place_position s) (_cube_grasped s) (_initial_cube_position s).

Definition set_phase_time (x : R) (s : t) : t :=
  mk (_object s) (_articulation s) (_running_scenario s) (_time s) (_phase s)
     x (_phase_duration s) (_home_position s) (_pre_grasp_position s)
     (_grasp_position s) (_lift_position s) (_place_position s)
     (_cube_grasped s) (_initial_cube_position s).

Definition set_cube_grasped (b : bool) (s : t) : t :=
  mk (_object s) (_articulation s) (_running_scenario s) (_time s) (_phase s)
     (_phase_time s) (_phase_duration s) (_home_position s)
     (_pre_grasp_position s) (_grasp_position s) (_lift_position s)
     (_place_position s) b (_initial_cube_position s).

(** [__init__] *)
Definition __init__ : t :=
  {| _object := None;
     _articulation := None;
     _running_scenario := false;
     _time := 0.0;
     _phase := 0;
     _phase_time := 0.0;
     _phase_duration := 2.0;
     _home_position := None;
     _pre_grasp_position := None;
     _grasp_position := None;
     _lift_position := None;
     _place_position := None;
     _cube_grasped := false;
     _initial_cube_position := None |}.

(** [setup_scenario(articulation, object_prim)].  [_time] and
    [_phase_duration] are not assigned here. *)
Definition setup_scenario (self : t) (articulation : Articulation)
    (object_prim : Cuboid) : t * list Event :=
  let n := num_dof articulation in
  let home := Np.zeros n in
  ({| _object := Some object_prim;
      _articulation := Some articulation;
      _running_scenario := true;
      _time := _time self;
      _phase := 0;
      _phase_time := 0.0;
      _phase_duration := _phase_duration self;
      _home_position := Some home;
      _pre_grasp_position := Some (firstn n [0.0; -0.5; 0.5; 0.0; 0.5; 0.0]);
      _grasp_position := Some (firstn n [0.0; -0.3; 0.3; 0.0; 0.8; 0.0]);
      _lift_position := Some (firstn n [0.0; -0.5; 0.5; 0.0; 0.5; 0.0]);
      _place_position := Some (firstn n [1.0; -0.3; 0.3; 0.0; 0.8; 0.0]);
      _cube_grasped := false;
      _initial_cube_position := Some (world_position object_prim) |},
   [ESetJointPositions home;
    EPrint "Pick and Place Scenario Started"%string;
    EPrint "Phase 0: Moving to pre-grasp position"%string]).

(** [teardown_scenario] *)
Definition teardown_scenario (self : t) : t :=
  {| _object := None;
     _articulation := None;
     _running_scenario := false;
     _time := 0.0;
     _phase := 0;
     _phase_time := 0.0;
     _phase_duration := _phase_duration self;
     _home_position := _home_position self;
     _pre_grasp_position := _pre_grasp_position self;
     _grasp_position := _grasp_position self;
     _lift_position := _lift_position self;
     _place_position := _place_position self;
     _cube_grasped := false;
     _initial_cube_position := _initial_cube_position self |}.

(** The easing factor computed inside [_interpolate_positions]:
    [smooth_t = (1 - np.cos(t * np.pi)) / 2]. *)
Definition smooth_t (t : R) : R := (1 - cos (t * PI)) / 2.

(** [_interpolate_positions(start, end, t)]:
    [start + (end - start) * smooth_t]. *)
Definition _interpolate_positions (start end_ : Np.ndarray) (t : R)
    : option Np.ndarray :=
  let? d := Np.sub end_ start in
  Np.add start (Np.mul_scalar d (smooth_t t)).

(** The interpolation factor of [_execute_phase]:
    [t = min(self._phase_time / self._phase_duration, 1.0)]. *)
Definition progress (self : t) : R :=
  Rmin (_phase_time self / _phase_duration self) 1.0.

(** [_execute_phase(step)].  The result is the action handed to
    [apply_action]; [None] stands for an exception raised on the way
    (division by a zero duration, an attribute still [None], incompatible
    array shapes). *)
Definition _execute_phase (self : t) (step : R) (joint_positions : Np.ndarray)
    : option Event :=
  if Req_dec_T (_phase_duration self) 0 then None
  else
    let t := progress self in
    let? _ := _articulation self in
    let current_positions := joint_positions in
    let? target :=
      (if (_phase self =? 0)%Z then
         let? a := _home_position self in
         let? b := _pre_grasp_position self in
         _interpolate_positions a b t
       else if (_phase self =? 1)%Z then
         let? a := _pre_grasp_position self in
         let? b := _grasp_position self in
         _interpolate_positions a b t
       else if (_phase self =? 2)%Z then
         _grasp_position self
       else if (_phase self =? 3)%Z then
         let? a := _grasp_position self in
         let? b := _lift_position self in
         _interpolate_positions a b t
       else if (_phase self =? 4)%Z then
         let? a := _lift_position self in
         let? b := _place_position self in
         _interpolate_positions a b t
       else if (_phase self =? 5)%Z then
         _place_position self
       else if (_phase self =? 6)%Z then
         let? a := _place_position self in
         let? b := _home_position self in
         _interpolate_positions a b t
       else
         _home_position self) in
    let? d := Np.sub target current_positions in
    let velocity := Np.div_scalar d (Rmax step 0.001) in
    let max_velocity := 2.0 in
    let velocity := Np.clip velocity (- max_velocity) max_velocity in
    Some (EApplyAction target velocity).

(** [_update_cube_position()]; an index out of range raises. *)
Definition _update_cube_position (self : t) (joint_positions : Np.ndarray)
    : option Event :=
  let? _ := _articulation self in
  let? j0 := nth_error joint_positions 0 in
  let? j1 := nth_error joint_positions 1 in
  let base_x := 0.0 in
  let base_y := 0.0 in
  let base_z := 0.0 in
  let reach := 1.5 in
  let x := base_x + reach * sin j0 * cos j1 in
  let y := base_y + reach * cos j0 * cos j1 in
  let z := base_z + reach * sin j1 + 0.5 in
  let? _ := _object self in
  Some (ESetWorldPose [x; y; z]).

(** [update_scenario(step)].  The state component is [self] as it stands when
    the method returns or raises. *)
Definition update_scenario (self : t) (step : R) (joint_positions : Np.ndarray)
    : t * list Event * Outcome :=
  if negb (_running_scenario self) then (self, [], Returned)
  else
    let self := set_time (_time self + step) self in
    let self := set_phase_time (_phase_time self + step) self in
    let '(self, printed, complete) :=
      if Rge_dec (_phase_time self) (_phase_duration self) then
        let self := set_phase (_phase self + 1) self in
        let self := set_phase_time 0.0 self in
        if (_phase self =? 1)%Z then
          (self, [EPrint "Phase 1: Moving to grasp position"%string], false)
        else if (_phase self =? 2)%Z then
          (set_cube_grasped true self,
           [EPrint "Phase 2: Grasping cube"%string], false)
        else if (_phase self =? 3)%Z then
          (self, [EPrint "Phase 3: Lifting cube"%string], false)
        else if (_phase self =? 4)%Z then
          (self, [EPrint "Phase 4: Moving to place position"%string], false)
        else if (_phase self =? 5)%Z then
          (set_cube_grasped false self,
           [EPrint "Phase 5: Placing cube"%string], false)
        else if (_phase self =? 6)%Z then
          (self, [EPrint "Phase 6: Returning home"%string], false)
        else if (_phase self >=? 7)%Z then
          (set_running_scenario false self,
           [EPrint "Pick and Place Complete!"%string], true)
        else (self, [], false)
      else (self, [], false) in
    if complete then (self, printed, Returned)
    else
      match _execute_phase self step joint_positions with
      | None => (self, printed, Raised)
      | Some action =>
          if _cube_grasped self then
            match _update_cube_position self joint_positions with
            | None => (self, printed ++ [action], Raised)
            | Some moved => (self, printed ++ [action; moved], Returned)
            end
          else (self, printed ++ [action], Returned)
      end.

(** One physics callback as seen by the scenario: the step and the joint
    positions the articulation reports during it. *)
Definition Tick : Type := R * Np.ndarray.

(** Consecutive calls of [update_scenario], events in order of emission. *)
Fixpoint run (self : t) (ticks : list Tick) : t * list Event :=
  match ticks with
  | [] => (self, [])
  | (step, q) :: rest =>
      let '(self', evs, _) := update_scenario self step q in
      let '(final, evs') := run self' rest in
      (final, evs ++ evs')
  end.

End ExampleScenario.

(** ** [UIBuilder] *)

Record World := { physics_dt : R; rendering_dt : R }.

Module UIBuilder.

(** The attributes assigned by [_on_init]. *)
Record t := mk {
  _articulation : option Articulation;
  _cuboid : option Cuboid;
  _scenario : ExampleScenario.t;
  _world : option World
}.

Definition _on_init : t :=
  {| _articulation := None;
     _cuboid := None;
     _scenario := ExampleScenario.__init__;
     _world := None |}.

(** [_reset_scenario()] *)
Definition _reset_scenario (self : t) : t * list Event :=
  match _articulation self, _cuboid self with
  | Some articulation, Some cuboid =>
      let s := ExampleScenario.teardown_scenario (_scenario self) in
      let '(s, evs) := ExampleScenario.setup_scenario s articulation cuboid in
      (mk (_articulation self) (_cuboid self) s (_world self), evs)
  | _, _ =>
      (self,
       [EPrint "Warning: Cannot reset scenario - objects not loaded"%string])
  end.

(** [_update_scenario(step)] *)
Definition _update_scenario (self : t) (step : R)
    (joint_positions : Np.ndarray) : t * list Event * Outcome :=
  let '(s, evs, o) :=
    ExampleScenario.update_scenario (_scenario self) step joint_positions in
  (mk (_articulation self) (_cuboid self) s (_world self), evs, o).

End UIBuilder.

(** ** Vocabulary of the properties *)

Import ExampleScenario.

(** The two joint configurations a phase moves between, as [_execute_phase]
    pairs them; a holding phase starts and ends at the same configuration. *)
Definition phase_endpoints (self : ExampleScenario.t)
    : option (Np.ndarray * Np.ndarray) :=
  let pair (a b : option Np.ndarray) :=
    let? x := a in let? y := b in Some (x, y) in
  if (_phase self =? 0)%Z then
    pair (_home_position self) (_pre_grasp_position self)
  else if (_phase self =? 1)%Z then
    pair (_pre_grasp_position self) (_grasp_position self)
  else if (_phase self =? 2)%Z then
    pair (_grasp_position self) (_grasp_position self)
  else if (_phase self =? 3)%Z then
    pair (_grasp_position self) (_lift_position self)
  else if (_phase self =? 4)%Z then
    pair (_lift_position self) (_place_position self)
  else if (_phase self =? 5)%Z then
    pair (_place_position self) (_place_position self)
  else if (_phase self =? 6)%Z then
    pair (_place_position self) (_home_position self)
  else
    pair (_home_position self) (_home_position self).

Definition has_shape (a : option Np.ndarray) (n : nat) : Prop :=
  match a with
  | Some v => length v = n
  | None => False
  end.

(** A scenario whose articulation is set, whose five joint configurations all
    have [n] entries and whose phase duration is positive. *)
Record configured (self : ExampleScenario.t) (n : nat) : Prop := {
  cfg_articulation : ExampleScenario._articulation self <> None;
  cfg_duration : 0 < _phase_duration self;
  cfg_home : has_shape (_home_position self) n;
  cfg_pre_grasp : has_shape (_pre_grasp_position self) n;
  cfg_grasp : has_shape (_grasp_position self) n;
  cfg_lift : has_shape (_lift_position self) n;
  cfg_place : has_shape (_place_position self) n
}.

(** States reached from a [setup_scenario] by calls of [update_scenario] with
    non-negative steps. *)
Inductive reachable : ExampleScenario.t -> Prop :=
| reachable_setup (s0 : ExampleScenario.t) (a : Articulation) (c : Cuboid) :
    reachable (fst (setup_scenario s0 a c))
| reachable_update (s : ExampleScenario.t) (step : R) (q : Np.ndarray) :
    reachable s -> 0 <= step ->
    reachable (fst (fst (update_scenario s step q))).

Definition is_apply_action (e : Event) : bool :=
  match e with
  | EApplyAction _ _ => true
  | _ => false
  end.

Definition is_set_world_pose (e : Event) : bool :=
  match e with
  | ESetWorldPose _ => true
  | _ => false
  end.

Definition within_clamp (x : R) : Prop := -2.0 <= x <= 2.0.

(** [clamp(x, lo, hi)] in the usual sense, both bounds enforced. *)
Definition clamp (x lo hi : R) : R := Rmax lo (Rmin x hi).

(** The velocity command in its documented form, [(target - current) / step]
    clamped to the maximum magnitude. *)
Definition claimed_velocity (target current : Np.ndarray) (step : R)
    : option Np.ndarray :=
  let? d := Np.sub target current in
  Some (Np.clip (Np.div_scalar d step) (- (2.0)) 2.0).

(** The clock of [update_scenario]: everything between the running check and
    the call of [_execute_phase].  The boolean is set when the method returns
    from inside the phase change. *)
Definition advance (self : ExampleScenario.t) (step : R)
    : ExampleScenario.t * list Event * bool :=
  let self := set_time (_time self + step) self in
  let self := set_phase_time (_phase_time self + step) self in
  if Rge_dec (_phase_time self) (_phase_duration self) then
    let self := set_phase (_phase self + 1) self in
    let self := set_phase_time 0.0 self in
    if (_phase self =? 1)%Z then
      (self, [EPrint "Phase 1: Moving to grasp position"%string], false)
    else if (_phase self =? 2)%Z then
      (set_cube_grasped true self,
       [EPrint "Phase 2: Grasping cube"%string], false)
    else if (_phase self =? 3)%Z then
      (self, [EPrint "Phase 3: Lifting cube"%string], false)
    else if (_phase self =? 4)%Z then
      (self, [EPrint "Phase 4: Moving to place position"%string], false)
    else if (_phase self =? 5)%Z then
      (set_cube_grasped false self,
       [EPrint "Phase 5: Placing cube"%string], false)
    else if (_phase self =? 6)%Z then
      (self, [EPrint "Phase 6: Returning home"%string], false)
    else if (_phase self >=? 7)%Z then
      (set_running_scenario false self,
       [EPrint "Pick and Place Complete!"%string], true)
    else (self, [], false)
  else (self, [], false).

(** A six-axis robot and the cuboid that [UIBuilder._on_load_world] creates. *)
Definition kr210 : Articulation := {| num_dof := 6 |}.
Definition cuboid : Cuboid := {| world_position := [0.6; 0.3; 0.3] |}.

(** A fresh scenario right after [setup_scenario]. *)
Definition started : ExampleScenario.t :=
  fst (setup_scenario __init__ kr210 cuboid).

(** The same scenario after one callback with a negative step. *)
Definition rewound : ExampleScenario.t :=
  fst (fst (update_scenario started (-1) (Np.zeros 6))).

(** What holds of the clock in every reachable state. *)
Definition phase_invariant (s : ExampleScenario.t) : Prop :=
  (0 <= _phase s <= 7)%Z /\
  _running_scenario s = negb (_phase s =? 7)%Z /\
  _cube_grasped s = ((2 <=? _phase s)%Z && (_phase s <=? 4)%Z)%bool /\
  0 <= _phase_time s.

(** Case analysis on the phase tests of the source. *)
Ltac split_phase :=
  repeat match goal with
  | |- context [(?x =? ?y)%Z] => destruct (Z.eqb_spec x y)
  | |- context [(?x >=? ?y)%Z] => destruct (Z.geb_spec x y)
  | |- context [(?x <=? ?y)%Z] => destruct (Z.leb_spec x y)
  end.

(** The scenario one phase later, after a callback that spans a whole phase. *)
Definition approaching : ExampleScenario.t :=
  fst (fst (update_scenario started 2 (Np.zeros 6))).

(** A scenario set up for an articulation with more joints than the
    configuration tables of [setup_scenario] have entries. *)
Definition seven_axes : ExampleScenario.t :=
  fst (setup_scenario __init__ {| num_dof := 7 |} cuboid).

(** Scenario objects as the class can produce them: built by [__init__] and
    then driven through its three public methods. *)
Inductive constructed : ExampleScenario.t -> Prop :=
| constructed_init : constructed __init__
| constructed_setup (s : ExampleScenario.t) (a : Articulation) (c : Cuboid) :
    constructed s -> constructed (fst (setup_scenario s a c))
| constructed_teardown (s : ExampleScenario.t) :
    constructed s -> constructed (teardown_scenario s)
| constructed_update (s : ExampleScenario.t) (step : R) (q : Np.ndarray) :
    constructed s -> constructed (fst (fst (update_scenario s step q))).

(** Total of the steps of a sequence of callbacks. *)
Definition sum_steps (ticks : list Tick) : R :=
  fold_right (fun tick acc => fst tick + acc) 0 ticks.

(** Number of events of one kind in a trace. *)
Definition count_events (kind : Event -> bool) (evs : list Event) : nat :=
  length (filter kind evs).

(** ** The panel: [UIBuilder] with its button and its callbacks

    Besides the four attributes of [_on_init] the callbacks use
    [_scenario_state_btn], which exists only once [build_ui] has run.  The
    attributes [frames], [wrapped_ui_elements] and [_timeline] are left out:
    only [cleanup] and [build_ui] touch the first two, and the timeline
    handle never changes.  Calls into the host are recorded in order; widget
    construction inside [build_ui] is host-side and not recorded.  What the
    host decides (the number of joints of the loaded robot, the type of an
    event) is an argument. *)

(** The wrapper of the RUN/STOP button: the attribute the panel assigns. *)
Record StateButton := { enabled : bool }.

Inductive TimelineEventType :=
| TIMELINE_PLAY | TIMELINE_PAUSE | TIMELINE_STOP | TIMELINE_OTHER.

Inductive StageEventType := STAGE_OPENED | STAGE_CLOSED | STAGE_OTHER.

Inductive HostCall :=
| HEvent (e : Event)
| HButtonReset
| HWorldReset
| HWorldClearInstance
| HTimelinePlay
| HTimelinePause
| HCreateNewStage
| HDefineSphereLight (path : string)
| HCreateRadiusAttr (radius : R)
| HCreateIntensityAttr (intensity : R)
| HSetWorldPoses (path : string) (positions : list Np.ndarray)
| HAddReference (usd_path prim_path : string)
| HNewCuboid (path : string) (position : Np.ndarray) (size : R)
    (color : list Z)
| HNewArticulation (path : string)
| HNewWorld (physics_dt rendering_dt : R)
| HSceneAddArticulation
| HSceneAddCuboid
| HGetWindow (title : string).

Module UIPanel.

(** The newline character, code 10. *)
Definition nl : string :=
  String (Ascii.Ascii false true false true false false false false)
         EmptyString.

(** ["="*50] *)
Definition rule : string :=
  "=================================================="%string.

Record t := mk {
  builder : UIBuilder.t;
  _scenario_state_btn : option StateButton
}.

(** [__init__]: the button attribute does not exist yet. *)
Definition __init__ : t :=
  {| builder := UIBuilder._on_init; _scenario_state_btn := None |}.

(** [build_ui], as far as the attributes go: a new button, disabled. *)
Definition build_ui (self : t) : t :=
  mk (builder self) (Some {| enabled := false |}).

(** [on_timeline_event(event)] *)
Definition on_timeline_event (self : t) (event_type : TimelineEventType)
    : t * list HostCall * Outcome :=
  match event_type with
  | TIMELINE_STOP =>
      match _scenario_state_btn self with
      | Some _ =>
          (mk (builder self) (Some {| enabled := false |}),
           [HButtonReset], Returned)
      | None => (self, [], Raised)
      end
  | _ => (self, [], Returned)
  end.

(** [_reset_extension()] *)
Definition _reset_extension (self : t) : t * list HostCall * Outcome :=
  let cleared :=
    match UIBuilder._world (builder self) with
    | Some _ => [HWorldClearInstance]
    | None => []
    end in
  match _scenario_state_btn self with
  | Some _ =>
      (mk UIBuilder._on_init (Some {| enabled := false |}),
       cleared ++ [HButtonReset], Returned)
  | None => (mk UIBuilder._on_init None, cleared, Returned)
  end.

(** [on_stage_event(event)] *)
Definition on_stage_event (self : t) (event_type : StageEventType)
    : t * list HostCall * Outcome :=
  match event_type with
  | STAGE_OPENED => _reset_extension self
  | _ => (self, [], Returned)
  end.

(** [_add_light_to_stage()] *)
Definition _add_light_to_stage : list HostCall :=
  [HDefineSphereLight "/World/SphereLight"%string;
   HCreateRadiusAttr 2;
   HCreateIntensityAttr 100000;
   HSetWorldPoses "/World/SphereLight"%string [[6.5; 0; 12]]].

(** [_enable_reset_button(enabled)]: looks the window up and does nothing
    with it. *)
Definition _enable_reset_button (enabled : bool) : list HostCall :=
  [HGetWindow "KUKA Robot Extension"%string].

(** [_on_load_world()]; [dof] is the number of joints the host finds in the
    robot asset, and the host reports the cuboid where it was created. *)
Definition _on_load_world (self : t) (dof : nat)
    : t * list HostCall * Outcome :=
  let robot_prim_path := "/kr210_l150"%string in
  let path_to_robot_usd :=
    "D:/Ext/kuka/data/Collected_kr210_l150/kr210_l150.usd"%string in
  let cuboid := {| world_position := [0.6; 0.3; 0.3] |} in
  let articulation := {| num_dof := dof |} in
  let world := {| physics_dt := 1 / 60.0; rendering_dt := 1 / 60.0 |} in
  let loaded :=
    UIBuilder.mk (Some articulation) (Some cuboid)
      (UIBuilder._scenario (builder self)) (Some world) in
  let '(b, evs) := UIBuilder._reset_scenario loaded in
  let calls :=
    [HEvent (EPrint (nl ++ rule)%string);
     HEvent (EPrint "Loading KUKA Pick and Place Scenario..."%string);
     HEvent (EPrint rule);
     HCreateNewStage]
    ++ _add_light_to_stage
    ++ [HEvent (EPrint ("Loading robot from: " ++ path_to_robot_usd)%string);
        HAddReference path_to_robot_usd robot_prim_path;
        HEvent (EPrint "Creating cuboid..."%string);
        HNewCuboid "/Scenario/cuboid"%string [0.6; 0.3; 0.3] 0.05
          [255; 0; 0]%Z;
        HEvent (EPrint "Creating articulation wrapper..."%string);
        HNewArticulation robot_prim_path;
        HEvent (EPrint "Creating World..."%string);
        HNewWorld (1 / 60.0) (1 / 60.0);
        HEvent (EPrint "Adding objects to World scene..."%string);
        HSceneAddArticulation;
        HSceneAddCuboid;
        HEvent (EPrint "Initializing World..."%string);
        HWorldReset;
        HEvent (EPrint "Setting up scenario..."%string)]
    ++ map HEvent evs in
  match _scenario_state_btn self with
  | None => (mk b None, calls, Raised)
  | Some _ =>
      (mk b (Some {| enabled := true |}),
       calls
       ++ [HButtonReset]
       ++ _enable_reset_button true
       ++ [HEvent (EPrint (nl ++ rule)%string);
           HEvent (EPrint "✓ KUKA Pick and Place Ready!"%string);
           HEvent (EPrint "✓ Click RUN to start the scenario"%string);
           HEvent (EPrint (rule ++ nl)%string)],
       Returned)
  end.

(** [_on_reset_world()] *)
Definition _on_reset_world (self : t) : t * list HostCall * Outcome :=
  match UIBuilder._world (builder self) with
  | None =>
      (self, [HEvent (EPrint "World not loaded yet!"%string)], Returned)
  | Some _ =>
      let '(b, evs) := UIBuilder._reset_scenario (builder self) in
      let calls :=
        [HEvent (EPrint (nl ++ "Resetting world...")%string); HWorldReset]
        ++ map HEvent evs in
      match _scenario_state_btn self with
      | None => (mk b None, calls, Raised)
      | Some _ =>
          (mk b (Some {| enabled := true |}),
           calls
           ++ [HButtonReset;
               HEvent (EPrint ("World reset complete!" ++ nl)%string)],
           Returned)
      end
  end.

(** [_update_scenario(step)], the physics callback of the button. *)
Definition _update_scenario (self : t) (step : R)
    (joint_positions : Np.ndarray) : t * list HostCall * Outcome :=
  let '(b, evs, o) :=
    UIBuilder._update_scenario (builder self) step joint_positions in
  (mk b (_scenario_state_btn self), map HEvent evs, o).

(** [_on_run_scenario_a_text()] and [_on_run_scenario_b_text()] *)
Definition _on_run_scenario_a_text (self : t)
    : t * list HostCall * Outcome :=
  (self,
   [HEvent (EPrint (nl ++ ">>> Starting Pick and Place <<<" ++ nl)%string);
    HTimelinePlay],
   Returned).

Definition _on_run_scenario_b_text (self : t)
    : t * list HostCall * Outcome :=
  (self,
   [HEvent (EPrint (nl ++ ">>> Stopping Scenario <<<" ++ nl)%string);
    HTimelinePause],
   Returned).

(** What the host can invoke on the panel. *)
Inductive Callback :=
| BuildUi
| LoadClicked (dof : nat)
| ResetClicked
| RunClicked
| StopClicked
| PhysicsStep (step : R) (joint_positions : Np.ndarray)
| TimelineEvent (event_type : TimelineEventType)
| StageEvent (event_type : StageEventType).

Definition fire (self : t) (cb : Callback) : t * list HostCall * Outcome :=
  match cb with
  | BuildUi => (build_ui self, [], Returned)
  | LoadClicked dof => _on_load_world self dof
  | ResetClicked => _on_reset_world self
  | RunClicked => _on_run_scenario_a_text self
  | StopClicked => _on_run_scenario_b_text self
  | PhysicsStep step q => _update_scenario self step q
  | TimelineEvent ty => on_timeline_event self ty
  | StageEvent ty => on_stage_event self ty
  end.

(** Panel states the host can bring about. *)
Inductive reachable : t -> Prop :=
| reachable_init : reachable __init__
| reachable_fire (self : t) (cb : Callback) :
    reachable self -> reachable (fst (fst (fire self cb))).

(** The message of the unset-objects branch of [_reset_scenario]. *)
Definition warning : HostCall :=
  HEvent
    (EPrint "Warning: Cannot reset scenario - objects not loaded"%string).

(** The panel state right after a successful load of a robot with [dof]
    joints. *)
Definition loaded (dof : nat) : t :=
  let articulation := {| num_dof := dof |} in
  let cuboid := {| world_position := [0.6; 0.3; 0.3] |} in
  mk (UIBuilder.mk (Some articulation) (Some cuboid)
        (fst (setup_scenario ExampleScenario.__init__ articulation cuboid))
        (Some {| physics_dt := 1 / 60.0; rendering_dt := 1 / 60.0 |}))
     (Some {| enabled := true |}).

End UIPanel.

(** What the callbacks keep true of the panel: the three handles are set or
    unset together, the scenario is an object of its class, and it runs only
    while a world is loaded. *)
Definition panel_invariant (p : UIPanel.t) : Prop :=
  let b := UIPanel.builder p in
  (UIBuilder._world b = None <-> UIBuilder._articulation b = None) /\
  (UIBuilder._world b = None <-> UIBuilder._cuboid b = None) /\
  constructed (UIBuilder._scenario b) /\
  (_running_scenario (UIBuilder._scenario b) = true ->
   UIBuilder._world b <> None).

(** Projections of an explicit panel state, leaving the scenario folded. *)
Ltac panel_fields :=
  cbn [fst snd UIPanel.builder UIPanel._scenario_state_btn
       UIBuilder._world UIBuilder._articulation UIBuilder._cuboid
       UIBuilder._scenario].

(** A trace of explicit host calls does not contain the warning. *)
Ltac no_warning :=
  unfold UIPanel.warning; simpl; intros Hin;
  repeat (destruct Hin as [Hin|Hin]; [discriminate Hin|]); exact Hin.

(** ** The blocking pick-and-place script ([senario.py])

    The second [ExampleScenario] class.  Its [update_scenario] runs the
    whole sequence in one call.  Host calls are recorded in order;
    [time.sleep] is a call like the others.  A message built from a
    position keeps the position as a value; the poses of the cubes are the
    host's, read by [get_world_pose] and written by [set_world_pose]. *)

Module PickPlaceScript.

(** [Gf.Vec3d] *)
Definition Vec3d : Type := (R * R * R)%type.

Inductive Call :=
| KPrint (msg : string)
| KPrintVec (prefix : string) (position : Vec3d)
| KInitialize (prim_path : string)
| KApplyAction (joint_positions : list R)
| KSleep (seconds : R)
| KCreateFixedJoint (robot_path cube_path : string)
| KRemoveFixedJoint (cube_path : string)
| KSetWorldPose (cube_path : string) (position : Vec3d).

(** The articulation handle of the script. *)
Record Robot := { num_joints : nat }.

(** World positions of the prims, by path. *)
Definition Poses : Type := string -> Vec3d.

Definition set_pose (poses : Poses) (path : string) (position : Vec3d)
    : Poses :=
  fun p => if String.eqb p path then position else poses p.

(** A cube prim is known by its path. *)
Record t := mk {
  _robot_path : string;
  _cube_paths : list string;
  _target_positions : list Vec3d;
  _robot : Robot;
  _cubes : list string
}.

(** [__init__]; [joints] is the number of joints the host reports for the
    robot. *)
Definition __init__ (joints : nat) : t * list Call :=
  let robot_path := "/World/kuka_kr210"%string in
  let cube_paths :=
    ["/World/Cubes/Pickup_A"%string; "/World/Cubes/Pickup_B"%string;
     "/World/Cubes/Pickup_C"%string; "/World/Cubes/Pickup_D"%string] in
  ({| _robot_path := robot_path;
      _cube_paths := cube_paths;
      _target_positions :=
        [(0.5, -0.3, 0.8); (0.5, -0.1, 0.8); (0.5, 0.1, 0.8);
         (0.5, 0.3, 0.8)];
      _robot := {| num_joints := joints |};
      _cubes := cube_paths |},
   KInitialize robot_path :: map KInitialize cube_paths).

Definition setup_scenario (self : t) : list Call :=
  [KPrint "Scenario setup complete."%string].

Definition teardown_scenario (self : t) : list Call :=
  [KPrint "Scenario teardown complete."%string].

(** [_move_arm_to(position)] *)
Definition _move_arm_to (self : t) (position : Vec3d) : list Call :=
  let joint_positions := repeat 0.5 (num_joints (_robot self)) in
  [KApplyAction joint_positions; KSleep 1.0].

(** [_pick_cube(cube)] *)
Definition _pick_cube (self : t) (cube : string) : list Call :=
  [KCreateFixedJoint (_robot_path self) cube].

(** [_place_cube(cube, position)] *)
Definition _place_cube (self : t) (cube : string) (position : Vec3d)
    (poses : Poses) : Poses * list Call :=
  (set_pose poses cube position,
   [KRemoveFixedJoint cube; KSetWorldPose cube position]).

(** The loop of [update_scenario] over the zipped cubes and targets. *)
Fixpoint handle_cubes (self : t) (pairs : list (string * Vec3d))
    (poses : Poses) : Poses * list Call :=
  match pairs with
  | [] => (poses, [])
  | (cube, target_pos) :: rest =>
      let cube_pos := poses cube in
      let before :=
        [KPrintVec "Moving to pick cube at "%string cube_pos]
        ++ _move_arm_to self cube_pos
        ++ [KPrint ("Picking cube: " ++ cube)%string]
        ++ _pick_cube self cube
        ++ [KPrintVec "Moving to place cube at "%string target_pos]
        ++ _move_arm_to self target_pos
        ++ [KPrintVec "Placing cube at "%string target_pos] in
      let '(poses, placed) := _place_cube self cube target_pos poses in
      let '(poses, later) := handle_cubes self rest poses in
      (poses, before ++ placed ++ later)
  end.

(** [update_scenario()] *)
Definition update_scenario (self : t) (poses : Poses) : Poses * list Call :=
  let '(poses, calls) :=
    handle_cubes self (combine (_cubes self) (_target_positions self)) poses in
  (poses, KPrint "Starting pick-and-place operation..."%string :: calls).

(** Readings of a trace. *)

Definition placements (calls : list Call) : list (string * Vec3d) :=
  flat_map (fun c => match c with
                     | KSetWorldPose cube position => [(cube, position)]
                     | _ => []
                     end) calls.

Definition is_joint_call (c : Call) : bool :=
  match c with
  | KCreateFixedJoint _ _ | KRemoveFixedJoint _ => true
  | _ => false
  end.

Definition commands (calls : list Call) : list (list R) :=
  flat_map (fun c => match c with
                     | KApplyAction joint_positions => [joint_positions]
                     | _ => []
                     end) calls.

Definition time_slept (calls : list Call) : R :=
  fold_right (fun c acc => match c with
                           | KSleep seconds => seconds + acc
                           | _ => acc
                           end) 0 calls.

End PickPlaceScript.

(** The scenario through the grasp: after full-phase callbacks it enters
    phase 2 ([grasping]), phase 3 ([lifting]) and phase 4 ([moving]). *)
Definition grasping : ExampleScenario.t :=
  fst (fst (update_scenario approaching 2 (Np.zeros 6))).

Definition lifting : ExampleScenario.t :=
  fst (fst (update_scenario grasping 2 (Np.zeros 6))).

Definition moving : ExampleScenario.t :=
  fst (fst (update_scenario lifting 2 (Np.zeros 6))).

(** ** numpy facts *)

Section NumpyFacts.

Variable f : R -> R -> R.

Lemma zip_with_length (a b : Np.ndarray) :
  length a = length b -> length (Np.zip_with f a b) = length a.
Proof.
  revert b; induction a as [|x a IH]; intros [|y b] H; simpl in *;
    try discriminate; auto.
Qed.

Lemma zip_with_nth (a b : Np.ndarray) (i : nat) :
  length a = length b -> (i < length a)%nat ->
  nth i (Np.zip_with f a b) 0 = f (nth i a 0) (nth i b 0).
Proof.
  revert b i; induction a as [|x a IH]; intros [|y b] i H Hi; simpl in *;
    try discriminate; try lia.
  destruct i as [|i]; [reflexivity|]. apply IH; lia.
Qed.

Lemma broadcast_same_shape (a b : Np.ndarray) :
  length a = length b -> Np.broadcast f a b = Some (Np.zip_with f a b).
Proof.
  intros H. unfold Np.broadcast. rewrite H, Nat.eqb_refl. reflexivity.
Qed.

End NumpyFacts.

(** ** The interpolator *)

Section Interpolator.

Lemma smooth_t_0 : smooth_t 0 = 0.
Proof. unfold smooth_t. rewrite Rmult_0_l, cos_0. lra. Qed.

Lemma smooth_t_1 : smooth_t 1 = 1.
Proof. unfold smooth_t. rewrite Rmult_1_l, cos_PI. lra. Qed.

(** On arrays of one shape the interpolator is an elementwise map. *)
Lemma interpolate_positions_zip (start end_ : Np.ndarray) (t : R) :
  length start = length end_ ->
  _interpolate_positions start end_ t =
  Some (Np.zip_with (fun s e => s + (e - s) * smooth_t t) start end_).
Proof.
  intros H. unfold _interpolate_positions, Np.sub, Np.add.
  rewrite broadcast_same_shape by auto. simpl.
  rewrite broadcast_same_shape.
  - f_equal. revert end_ H.
    induction start as [|x a IH]; intros [|y b] H; simpl in *;
      try discriminate; auto.
    f_equal. apply IH. lia.
  - unfold Np.mul_scalar. rewrite length_map, zip_with_length; auto.
Qed.

Lemma zip_with_blend_0 (start end_ : Np.ndarray) :
  length start = length end_ ->
  Np.zip_with (fun s e => s + (e - s) * 0) start end_ = start.
Proof.
  revert end_; induction start as [|x a IH]; intros [|y b] H; simpl in *;
    try discriminate; auto.
  f_equal; [lra | apply IH; lia].
Qed.

Lemma zip_with_blend_1 (start end_ : Np.ndarray) :
  length start = length end_ ->
  Np.zip_with (fun s e => s + (e - s) * 1) start end_ = end_.
Proof.
  revert end_; induction start as [|x a IH]; intros [|y b] H; simpl in *;
    try discriminate; auto.
  f_equal; [lra | apply IH; lia].
Qed.

Lemma interpolate_positions_at_0 (start end_ : Np.ndarray) :
  length start = length end_ ->
  _interpolate_positions start end_ 0 = Some start.
Proof.
  intros H. rewrite interpolate_positions_zip, smooth_t_0 by auto.
  now rewrite zip_with_blend_0.
Qed.

Lemma interpolate_positions_at_1 (start end_ : Np.ndarray) :
  length start = length end_ ->
  _interpolate_positions start end_ 1 = Some end_.
Proof.
  intros H. rewrite interpolate_positions_zip, smooth_t_1 by auto.
  now rewrite zip_with_blend_1.
Qed.

(** C1. For every [start], [end_] and [t], [_interpolate_positions] returns
    [start + (end_ - start) * smooth_t] with
    [smooth_t = (1 - cos (t * PI)) / 2], in numpy's arithmetic; for
    joint-configuration vectors of one shape this is the array whose entry
    [i] is [start[i] + (end_[i] - start[i]) * smooth_t], the cosine-eased
    linear blend of the two endpoints. *)
Theorem interpolate_positions_cosine_blend
    (start end_ : Np.ndarray) (t : R) :
  _interpolate_positions start end_ t =
    (let? d := Np.sub end_ start in
     Np.add start (Np.mul_scalar d ((1 - cos (t * PI)) / 2))) /\
  (length start = length end_ ->
   exists v,
     _interpolate_positions start end_ t = Some v /\
     length v = length start /\
     forall i, (i < length start)%nat ->
       nth i v 0 =
       nth i start 0
       + (nth i end_ 0 - nth i start 0) * ((1 - cos (t * PI)) / 2)).
Proof.
  split; [reflexivity|].
  intros H. eexists. split; [apply interpolate_positions_zip; exact H|].
  split; [apply zip_with_length; exact H|].
  intros i Hi. rewrite zip_with_nth by assumption. reflexivity.
Qed.

Lemma interpolate_positions_cosine_blend_witness :
  exists v,
    _interpolate_positions [0; 1] [1; 3] (1 / 2) = Some v /\
    length v = 2%nat /\
    forall i, (i < 2)%nat ->
      nth i v 0 =
      nth i [0; 1] 0
      + (nth i [1; 3] 0 - nth i [0; 1] 0) * ((1 - cos (1 / 2 * PI)) / 2).
Proof.
  apply (proj2 (interpolate_positions_cosine_blend [0; 1] [1; 3] (1 / 2))).
  reflexivity.
Defined.

(** C3. The easing function [smooth_t t = (1 - cos (t * PI)) / 2] is
    non-decreasing on [[0, 1]] and symmetric about [1/2]:
    [smooth_t t + smooth_t (1 - t) = 1] for every [t] in [[0, 1]]. *)
Theorem smooth_t_monotone_symmetric :
  (forall t u, 0 <= t -> t <= u -> u <= 1 -> smooth_t t <= smooth_t u) /\
  (forall t, 0 <= t <= 1 -> smooth_t t + smooth_t (1 - t) = 1).
Proof.
  assert (Hpi : 0 < PI) by apply PI_RGT_0.
  split.
  - intros t u H0 Htu H1. unfold smooth_t.
    assert (cos (u * PI) <= cos (t * PI)) by (apply cos_decr_1; nra).
    lra.
  - intros t _. unfold smooth_t.
    replace ((1 - t) * PI) with (PI - t * PI) by ring.
    rewrite Rtrigo_facts.cos_pi_minus. lra.
Qed.

Lemma smooth_t_monotone_symmetric_witness :
  smooth_t (1 / 4) <= smooth_t (3 / 4) /\
  smooth_t (1 / 4) + smooth_t (1 - 1 / 4) = 1.
Proof.
  split.
  - apply (proj1 smooth_t_monotone_symmetric (1 / 4) (3 / 4)); lra.
  - apply (proj2 smooth_t_monotone_symmetric (1 / 4)); lra.
Defined.

End Interpolator.

(** ** [_execute_phase] *)

Section ExecutePhase.

Lemma update_scenario_advance (self : ExampleScenario.t) (step : R)
    (q : Np.ndarray) :
  update_scenario self step q =
  if negb (_running_scenario self) then (self, [], Returned)
  else
    let '(s, printed, complete) := advance self step in
    if complete then (s, printed, Returned)
    else
      match _execute_phase s step q with
      | None => (s, printed, Raised)
      | Some action =>
          if _cube_grasped s then
            match _update_cube_position s q with
            | None => (s, printed ++ [action], Raised)
            | Some moved => (s, printed ++ [action; moved], Returned)
            end
          else (s, printed ++ [action], Returned)
      end.
Proof. reflexivity. Qed.

Lemma progress_at_start (self : ExampleScenario.t) :
  0 < _phase_duration self -> _phase_time self = 0 -> progress self = 0.
Proof.
  intros Hd H0. unfold progress. rewrite H0.
  unfold Rdiv. rewrite Rmult_0_l. apply Rmin_left. lra.
Qed.

Lemma progress_at_end (self : ExampleScenario.t) :
  0 < _phase_duration self -> _phase_duration self <= _phase_time self ->
  progress self = 1.
Proof.
  intros Hd H. unfold progress. replace 1.0 with 1 by lra. apply Rmin_right.
  apply Rmult_le_reg_r with (_phase_duration self); [assumption|].
  unfold Rdiv. rewrite Rmult_assoc, Rinv_l by lra. lra.
Qed.

Lemma execute_phase_configured (self : ExampleScenario.t) (n : nat)
    (step : R) (q : Np.ndarray) :
  configured self n -> length q = n ->
  exists a b target,
    phase_endpoints self = Some (a, b) /\
    length a = n /\ length b = n /\ length target = n /\
    _execute_phase self step q =
      Some (EApplyAction target
              (Np.clip (Np.div_scalar (Np.zip_with Rminus target q)
                                      (Rmax step 0.001)) (- (2.0)) 2.0)) /\
    (progress self = 0 -> target = a) /\
    (progress self = 1 -> target = b).
Proof.
  intros [Hart Hdur Hh Hp Hg Hl Hpl] Hq.
  unfold _execute_phase, phase_endpoints.
  destruct (Req_dec_T (_phase_duration self) 0) as [E|_]; [lra|].
  destruct (ExampleScenario._articulation self) as [art|]; [|congruence].
  destruct (_home_position self) as [h|]; [|contradiction].
  destruct (_pre_grasp_position self) as [p|]; [|contradiction].
  destruct (_grasp_position self) as [g|]; [|contradiction].
  destruct (_lift_position self) as [l|]; [|contradiction].
  destruct (_place_position self) as [pl|]; [|contradiction].
  simpl in *.
  repeat match goal with
  | |- context [(?x =? ?y)%Z] => destruct (x =? y)%Z
  end.
  all: simpl.
  all: repeat rewrite interpolate_positions_zip by congruence.
  all: simpl.
  all: unfold Np.sub.
  all: rewrite broadcast_same_shape by (try rewrite zip_with_length; congruence).
  all: simpl.
  all: do 3 eexists; split; [reflexivity|].
  all: do 2 (split; [congruence|]).
  all: split; [|split; [reflexivity|]].
  all: try (rewrite zip_with_length; congruence); try congruence.
  all: split; intros Ht; try reflexivity; rewrite Ht.
  all: try (rewrite smooth_t_0; apply zip_with_blend_0; congruence).
  all: try (rewrite smooth_t_1; apply zip_with_blend_1; congruence).
Qed.

Lemma configured_started : configured started 6.
Proof.
  split; simpl; try reflexivity; [discriminate | lra].
Qed.

(** [setup_scenario] yields configurations of one shape as long as the
    articulation has at most the six joints its tables provide for. *)
Lemma configured_setup (s0 : ExampleScenario.t) (a : Articulation)
    (c : Cuboid) :
  0 < _phase_duration s0 -> (num_dof a <= 6)%nat ->
  configured (fst (setup_scenario s0 a c)) (num_dof a).
Proof.
  intros Hd Hn. split; simpl; try exact Hd; try discriminate.
  - apply repeat_length.
  - rewrite length_firstn. simpl. lia.
  - rewrite length_firstn. simpl. lia.
  - rewrite length_firstn. simpl. lia.
  - rewrite length_firstn. simpl. lia.
Qed.

(** With a seventh joint the home configuration and the tabulated ones
    differ in shape and the first phase raises. *)
Example seven_axes_raise (step : R) (q : Np.ndarray) :
  _execute_phase seven_axes step q = None.
Proof.
  unfold _execute_phase. simpl.
  destruct (Req_dec_T 2.0 0); reflexivity.
Qed.

(** C2. For every phase and every choice of the joint configurations, the
    target commanded at progress [t = 0] (no time elapsed in the phase) is the
    phase's start configuration and the target at [t = 1] (the phase time has
    reached the duration) is its end configuration; so are the values of the
    interpolator itself at [0] and [1]. *)
Theorem phase_target_endpoints (self : ExampleScenario.t) (n : nat)
    (step : R) (q : Np.ndarray) :
  configured self n -> length q = n ->
  exists a b,
    phase_endpoints self = Some (a, b) /\
    _interpolate_positions a b 0 = Some a /\
    _interpolate_positions a b 1 = Some b /\
    (_phase_time self = 0 ->
     progress self = 0 /\
     exists v, _execute_phase self step q = Some (EApplyAction a v)) /\
    (_phase_duration self <= _phase_time self ->
     progress self = 1 /\
     exists v, _execute_phase self step q = Some (EApplyAction b v)).
Proof.
  intros Hc Hq.
  destruct (execute_phase_configured self n step q Hc Hq)
    as (a & b & target & Hab & Ha & Hb & _ & Hrun & H0 & H1).
  exists a, b. split; [exact Hab|].
  split; [apply interpolate_positions_at_0; congruence|].
  split; [apply interpolate_positions_at_1; congruence|].
  pose proof (cfg_duration _ _ Hc) as Hd.
  split; intros Ht.
  - pose proof (progress_at_start self Hd Ht) as Hp. split; [exact Hp|].
    rewrite (H0 Hp) in Hrun. eauto.
  - pose proof (progress_at_end self Hd Ht) as Hp. split; [exact Hp|].
    rewrite (H1 Hp) in Hrun. eauto.
Qed.

Lemma phase_target_endpoints_witness :
  exists a b,
    phase_endpoints started = Some (a, b) /\
    _interpolate_positions a b 0 = Some a /\
    _interpolate_positions a b 1 = Some b /\
    (_phase_time started = 0 ->
     progress started = 0 /\
     exists v,
       _execute_phase started (1 / 60) (Np.zeros 6) = Some (EApplyAction a v)) /\
    (_phase_duration started <= _phase_time started ->
     progress started = 1 /\
     exists v,
       _execute_phase started (1 / 60) (Np.zeros 6) = Some (EApplyAction b v)).
Proof.
  apply (phase_target_endpoints started 6 (1 / 60) (Np.zeros 6)).
  - exact configured_started.
  - reflexivity.
Defined.

Lemma map_nth_in (g : R -> R) (l : Np.ndarray) (i : nat) :
  (i < length l)%nat -> nth i (map g l) 0 = g (nth i l 0).
Proof.
  intros Hi. rewrite (nth_indep (map g l) 0 (g 0)) by (now rewrite length_map).
  apply map_nth.
Qed.

(** What any successful [_execute_phase] hands to [apply_action]. *)
Lemma execute_phase_inv (self : ExampleScenario.t) (step : R)
    (q : Np.ndarray) (e : Event) :
  _execute_phase self step q = Some e ->
  exists target d,
    Np.sub target q = Some d /\
    e = EApplyAction target
          (Np.clip (Np.div_scalar d (Rmax step 0.001)) (- (2.0)) 2.0).
Proof.
  unfold _execute_phase.
  destruct (Req_dec_T (_phase_duration self) 0); [discriminate|].
  destruct (ExampleScenario._articulation self); [|discriminate]. simpl.
  match goal with |- bind ?m _ = _ -> _ => destruct m as [target|] end;
    [|discriminate].
  simpl. destruct (Np.sub target q) as [d|] eqn:Hd; [|discriminate].
  simpl. intros [= <-]. eauto.
Qed.

Lemma clip_within (l : Np.ndarray) :
  Forall within_clamp (Np.clip l (- (2.0)) 2.0).
Proof.
  unfold Np.clip. apply Forall_forall. intros x Hx.
  apply in_map_iff in Hx. destruct Hx as (y & <- & _).
  unfold within_clamp, Rmin, Rmax. repeat destruct Rle_dec; lra.
Qed.

(** C4 (as stated): at a step of half a millisecond, with the first joint
    half a milliradian short of its target, the commanded velocity of that
    joint is [0.5], not [(target - current) / step = 1]. *)
Lemma velocity_not_divided_by_step :
  exists target v w,
    _execute_phase started 0.0005 [-0.0005; 0; 0; 0; 0; 0]
      = Some (EApplyAction target v) /\
    claimed_velocity target [-0.0005; 0; 0; 0; 0; 0] 0.0005 = Some w /\
    nth 0 v 0 = 0.5 /\ nth 0 w 0 = 1 /\ v <> w.
Proof.
  destruct (execute_phase_configured started 6 0.0005
              [-0.0005; 0; 0; 0; 0; 0] configured_started eq_refl)
    as (a & b & target & Hab & _ & _ & _ & Hrun & H0 & _).
  assert (Hp : progress started = 0)
    by (apply progress_at_start; simpl; lra).
  specialize (H0 Hp). subst target.
  cbv [phase_endpoints started setup_scenario fst _phase Z.eqb
       _home_position _pre_grasp_position bind] in Hab.
  injection Hab as <- _.
  eexists _, _, _. split; [exact Hrun|].
  unfold claimed_velocity, Np.sub. rewrite broadcast_same_shape by reflexivity.
  split; [reflexivity|]. simpl.
  assert (Hv : Rmin (Rmax ((0 - -0.0005) / Rmax 0.0005 0.001) (- (2.0))) 2.0
               = 0.5)
    by (unfold Rmin, Rmax; repeat destruct Rle_dec; lra).
  assert (Hw : Rmin (Rmax ((0 - -0.0005) / 0.0005) (- (2.0))) 2.0 = 1)
    by (unfold Rmin, Rmax; repeat destruct Rle_dec; lra).
  split; [exact Hv|]. split; [exact Hw|].
  intros [= H _]. rewrite Hv, Hw in H. lra.
Qed.

(** C4 (amended). Whenever the configurations and the reported joint
    positions have one shape, [_execute_phase] commands the velocity
    [(target - current) / max(step, 0.001)] clamped componentwise to
    [[-2, 2]]; this is [(target - current) / step] clamped as soon as the step
    is at least one millisecond. *)
Theorem execute_phase_velocity (self : ExampleScenario.t) (n : nat)
    (step : R) (q : Np.ndarray) :
  configured self n -> length q = n ->
  exists target v,
    _execute_phase self step q = Some (EApplyAction target v) /\
    length target = n /\ length v = n /\
    (forall i, (i < n)%nat ->
       nth i v 0 =
       Rmin (Rmax ((nth i target 0 - nth i q 0) / Rmax step 0.001) (- (2.0)))
            2.0) /\
    (0.001 <= step -> claimed_velocity target q step = Some v).
Proof.
  intros Hc Hq.
  destruct (execute_phase_configured self n step q Hc Hq)
    as (a & b & target & _ & _ & _ & Ht & Hrun & _).
  eexists _, _. split; [exact Hrun|]. split; [exact Ht|].
  assert (Hz : length (Np.zip_with Rminus target q) = n)
    by (rewrite zip_with_length; congruence).
  unfold Np.clip, Np.div_scalar. split; [|split].
  - now rewrite !length_map.
  - intros i Hi.
    rewrite map_nth_in by (rewrite length_map; lia).
    rewrite map_nth_in by lia.
    rewrite zip_with_nth by lia. reflexivity.
  - intros Hs. unfold claimed_velocity, Np.sub.
    rewrite broadcast_same_shape by congruence. simpl.
    rewrite Rmax_left by exact Hs. reflexivity.
Qed.

Lemma execute_phase_velocity_witness :
  exists target v,
    _execute_phase started (1 / 60) (Np.zeros 6)
      = Some (EApplyAction target v) /\
    length target = 6%nat /\ length v = 6%nat /\
    (forall i, (i < 6)%nat ->
       nth i v 0 =
       Rmin (Rmax ((nth i target 0 - nth i (Np.zeros 6) 0) / Rmax (1 / 60) 0.001)
                  (- (2.0)))
            2.0) /\
    (0.001 <= 1 / 60 -> claimed_velocity target (Np.zeros 6) (1 / 60) = Some v).
Proof.
  apply (execute_phase_velocity started 6 (1 / 60) (Np.zeros 6)).
  - exact configured_started.
  - reflexivity.
Defined.

Lemma progress_le_1 (self : ExampleScenario.t) : progress self <= 1.
Proof. unfold progress. replace 1.0 with 1 by lra. apply Rmin_r. Qed.

Lemma progress_clamp (self : ExampleScenario.t) :
  0 < _phase_duration self -> 0 <= _phase_time self ->
  progress self = clamp (_phase_time self / _phase_duration self) 0 1.
Proof.
  intros Hd Ht. unfold progress, clamp. replace 1.0 with 1 by lra.
  assert (0 <= _phase_time self / _phase_duration self).
  { apply Rmult_le_pos; [exact Ht|]. left. now apply Rinv_0_lt_compat. }
  rewrite Rmax_right; [reflexivity|]. apply Rmin_glb; lra.
Qed.

End ExecutePhase.

(** ** [update_scenario] *)

Section UpdateScenario.

(** The clock either changes phase, when the accumulated phase time has
    reached the duration, or only accumulates time. *)
Lemma advance_cases (self : ExampleScenario.t) (step : R) :
  let s := fst (fst (advance self step)) in
  let complete := snd (advance self step) in
  (_phase_duration self <= _phase_time self + step /\
   _phase s = (_phase self + 1)%Z /\
   _phase_time s = 0 /\
   complete = (_phase s >=? 7)%Z /\
   _running_scenario s = (_running_scenario self && negb complete)%bool /\
   _cube_grasped s =
     (if (_phase s =? 2)%Z then true
      else if (_phase s =? 5)%Z then false
      else _cube_grasped self))
  \/
  (_phase_time self + step < _phase_duration self /\
   _phase s = _phase self /\
   _phase_time s = _phase_time self + step /\
   complete = false /\
   _running_scenario s = _running_scenario self /\
   _cube_grasped s = _cube_grasped self).
Proof.
  unfold advance. simpl.
  destruct (Rge_dec (_phase_time self + step) (_phase_duration self)) as [H|H].
  - left. split; [lra|].
    split_phase; simpl; repeat split; try lra; split_phase; simpl in *;
      try reflexivity; try lia;
      try (symmetry; apply andb_true_r); try (symmetry; apply andb_false_r).
  - right. simpl. repeat split; lra.
Qed.

Lemma advance_frame (self : ExampleScenario.t) (step : R) :
  let s := fst (fst (advance self step)) in
  _phase_duration s = _phase_duration self /\
  ExampleScenario._articulation s = ExampleScenario._articulation self /\
  _object s = _object self /\
  _home_position s = _home_position self /\
  _pre_grasp_position s = _pre_grasp_position self /\
  _grasp_position s = _grasp_position self /\
  _lift_position s = _lift_position self /\
  _place_position s = _place_position self.
Proof.
  unfold advance. simpl.
  destruct (Rge_dec (_phase_time self + step) (_phase_duration self));
    split_phase; simpl; repeat split.
Qed.

Lemma advance_prints (self : ExampleScenario.t) (step : R) (e : Event) :
  In e (snd (fst (advance self step))) -> exists msg, e = EPrint msg.
Proof.
  unfold advance. simpl.
  destruct (Rge_dec (_phase_time self + step) (_phase_duration self));
    split_phase; simpl; intros Hin; intuition (subst; eauto).
Qed.

Lemma update_scenario_state (self : ExampleScenario.t) (step : R)
    (q : Np.ndarray) :
  fst (fst (update_scenario self step q)) =
  if _running_scenario self then fst (fst (advance self step)) else self.
Proof.
  rewrite update_scenario_advance.
  destruct (_running_scenario self); [|reflexivity]. simpl.
  destruct (advance self step) as [[s pr] c]. simpl.
  destruct c; [reflexivity|].
  destruct (_execute_phase s step q); [|reflexivity].
  destruct (_cube_grasped s); [|reflexivity].
  destruct (_update_cube_position s q); reflexivity.
Qed.

Lemma update_cube_position_inv (self : ExampleScenario.t) (q : Np.ndarray)
    (e : Event) :
  _update_cube_position self q = Some e -> exists p, e = ESetWorldPose p.
Proof.
  unfold _update_cube_position.
  destruct (ExampleScenario._articulation self); [|discriminate].
  destruct q as [|j0 [|j1 q']]; simpl; try discriminate.
  destruct (_object self); simpl; [|discriminate].
  intros [= <-]. eauto.
Qed.

(** Where each event of one [update_scenario] comes from. *)
Lemma update_scenario_events (self : ExampleScenario.t) (step : R)
    (q : Np.ndarray) (e : Event) :
  let s' := fst (fst (update_scenario self step q)) in
  In e (snd (fst (update_scenario self step q))) ->
  _running_scenario self = true /\
  ((exists msg, e = EPrint msg) \/
   (_running_scenario s' = true /\ _execute_phase s' step q = Some e) \/
   (_running_scenario s' = true /\ _cube_grasped s' = true /\
    _update_cube_position s' q = Some e)).
Proof.
  rewrite update_scenario_advance.
  destruct (_running_scenario self) eqn:Hrun; simpl; [|intros []].
  pose proof (advance_cases self step) as Hc.
  pose proof (advance_prints self step e) as Hp.
  destruct (advance self step) as [[s pr] c]. simpl in *.
  assert (Hr : c = false -> _running_scenario s = true).
  { intros ->. rewrite Hrun in Hc. destruct Hc as [Hc|Hc]; apply Hc. }
  intros Hin. split; [reflexivity|]. revert Hin.
  destruct c; simpl; [auto|].
  destruct (_execute_phase s step q) as [a|] eqn:Ha; simpl; [|auto].
  destruct (_cube_grasped s) eqn:Hg; simpl.
  - destruct (_update_cube_position s q) as [m|] eqn:Hm; simpl;
      intros Hin; apply in_app_or in Hin; destruct Hin as [Hin|Hin]; auto;
      simpl in Hin; intuition (subst; auto).
  - intros Hin; apply in_app_or in Hin; destruct Hin as [Hin|Hin]; auto;
      simpl in Hin; intuition (subst; auto).
Qed.

Lemma update_scenario_idle (self : ExampleScenario.t) (step : R)
    (q : Np.ndarray) :
  _running_scenario self = false ->
  update_scenario self step q = (self, [], Returned).
Proof. intros H. unfold update_scenario. now rewrite H. Qed.

Lemma run_idle (self : ExampleScenario.t) (ticks : list Tick) :
  _running_scenario self = false -> run self ticks = (self, []).
Proof.
  intros H. induction ticks as [|[step q] rest IH]; [reflexivity|].
  simpl. rewrite update_scenario_idle by exact H. now rewrite IH.
Qed.

Lemma reachable_invariant (s : ExampleScenario.t) :
  reachable s -> phase_invariant s.
Proof.
  induction 1 as [s0 a c|s step q Hs IH Hstep].
  - unfold phase_invariant. simpl. repeat split; try lia; lra.
  - rewrite update_scenario_state.
    destruct (_running_scenario s) eqn:Hrun; [|exact IH].
    destruct IH as (Hph & Hr & Hg & Ht). rewrite Hrun in Hr.
    unfold phase_invariant.
    destruct (advance_cases s step)
      as [(_ & -> & -> & Hc & -> & ->)|(_ & -> & -> & _ & -> & ->)].
    + rewrite Hrun, Hc, Hg. revert Hr. simpl.
      split_phase; simpl; intros; repeat split; try lia; try lra;
        try discriminate; try reflexivity.
    + rewrite Hrun, Hg. revert Hr.
      split_phase; simpl; intros; repeat split; try lia; try lra;
        try discriminate; try reflexivity.
Qed.

(** C5. Every component of a velocity vector handed to [apply_action], by
    [_execute_phase] itself or in the course of an [update_scenario], lies in
    the clamp bounds [[-2.0, 2.0]], whatever the phase, the joint state and
    the step. *)
Theorem velocity_within_clamp (self : ExampleScenario.t) (step : R)
    (q : Np.ndarray) :
  (forall target v,
     _execute_phase self step q = Some (EApplyAction target v) ->
     Forall within_clamp v) /\
  (forall target v,
     In (EApplyAction target v) (snd (fst (update_scenario self step q))) ->
     Forall within_clamp v).
Proof.
  assert (Hexec : forall s target v,
            _execute_phase s step q = Some (EApplyAction target v) ->
            Forall within_clamp v).
  { intros s target v H. apply execute_phase_inv in H.
    destruct H as (target' & d & _ & [= _ ->]). apply clip_within. }
  split; [apply Hexec|].
  intros target v Hin. apply update_scenario_events in Hin.
  destruct Hin as (_ & [(msg & Hm)|[(_ & He)|(_ & _ & Hu)]]).
  - discriminate.
  - exact (Hexec _ _ _ He).
  - apply update_cube_position_inv in Hu. destruct Hu as (p & Hp).
    discriminate.
Qed.

Lemma velocity_within_clamp_witness :
  exists target v,
    _execute_phase started (1 / 60) (Np.zeros 6)
      = Some (EApplyAction target v) /\
    Forall within_clamp v.
Proof.
  destruct (execute_phase_configured started 6 (1 / 60) (Np.zeros 6)
              configured_started eq_refl)
    as (a & b & target & _ & _ & _ & _ & Hrun & _).
  eexists _, _. split; [exact Hrun|].
  exact (proj1 (velocity_within_clamp started (1 / 60) (Np.zeros 6))
           _ _ Hrun).
Defined.

Lemma rewound_phase_time :
  _phase_time rewound = -1 /\ _phase_duration rewound = 2.
Proof.
  unfold rewound. rewrite update_scenario_state. simpl.
  destruct (advance_cases started (-1)) as [(H & _)|(_ & _ & -> & _)].
  - simpl in H. lra.
  - destruct (advance_frame started (-1)) as (-> & _). simpl. lra.
Qed.

(** After a callback with a negative step the progress used by
    [_execute_phase] is negative, not the doubly clamped value. *)
Lemma progress_not_clamped_below :
  progress rewound = -0.5 /\
  clamp (_phase_time rewound / _phase_duration rewound) 0 1 = 0 /\
  progress rewound <>
  clamp (_phase_time rewound / _phase_duration rewound) 0 1.
Proof.
  destruct rewound_phase_time as (Ht & Hd).
  unfold progress, clamp. rewrite Ht, Hd.
  unfold Rmin, Rmax. repeat destruct Rle_dec; try lra.
Qed.

(** The bounds the code does enforce on the progress: it never exceeds 1,
    and it agrees with [clamp(elapsed / duration, 0, 1)] whenever the elapsed
    phase time is non-negative, as it is in every state reached from
    [setup_scenario] with non-negative steps. *)
Theorem progress_upper_clamp (self : ExampleScenario.t) :
  0 < _phase_duration self ->
  progress self = Rmin (_phase_time self / _phase_duration self) 1 /\
  progress self <= 1 /\
  (0 <= _phase_time self ->
   0 <= progress self /\
   progress self = clamp (_phase_time self / _phase_duration self) 0 1) /\
  (reachable self ->
   progress self = clamp (_phase_time self / _phase_duration self) 0 1).
Proof.
  intros Hd.
  assert (Hnn : 0 <= _phase_time self ->
                0 <= progress self /\
                progress self =
                clamp (_phase_time self / _phase_duration self) 0 1).
  { intros Ht. pose proof (progress_clamp self Hd Ht) as Hc.
    split; [|exact Hc]. rewrite Hc. unfold clamp. apply Rmax_l. }
  split; [unfold progress; f_equal; lra|].
  split; [apply progress_le_1|]. split; [exact Hnn|].
  intros Hr. apply Hnn. apply (reachable_invariant self Hr).
Qed.

Lemma progress_upper_clamp_witness :
  progress started = Rmin (_phase_time started / _phase_duration started) 1 /\
  progress started <= 1 /\
  (0 <= _phase_time started ->
   0 <= progress started /\
   progress started =
   clamp (_phase_time started / _phase_duration started) 0 1) /\
  (reachable started ->
   progress started =
   clamp (_phase_time started / _phase_duration started) 0 1).
Proof.
  apply (progress_upper_clamp started). simpl. lra.
Defined.

Lemma configured_update (s : ExampleScenario.t) (n : nat) (step : R)
    (q : Np.ndarray) :
  configured s n -> configured (fst (fst (update_scenario s step q))) n.
Proof.
  intros Hc. rewrite update_scenario_state.
  destruct (_running_scenario s); [|exact Hc].
  destruct (advance_frame s step)
    as (Hd & Ha & _ & Hh & Hp & Hg & Hl & Hpl).
  destruct Hc. split; congruence.
Qed.

Lemma reachable_started : reachable started.
Proof. apply reachable_setup. Qed.



(** C9. Whatever the step, [update_scenario] on a scenario that is not
    running returns at once: the state is the same in every field, no event
    is issued and no time is accumulated.  This is so before any
    [setup_scenario], after [teardown_scenario] and after completion. *)
Theorem update_scenario_not_running (self : ExampleScenario.t) (step : R)
    (q : Np.ndarray) :
  (_running_scenario self = false ->
   update_scenario self step q = (self, [], Returned)) /\
  update_scenario __init__ step q = (__init__, [], Returned) /\
  update_scenario (teardown_scenario self) step q
    = (teardown_scenario self, [], Returned) /\
  (reachable self -> _phase self = 7%Z ->
   update_scenario self step q = (self, [], Returned)).
Proof.
  split; [apply update_scenario_idle|].
  split; [reflexivity|]. split; [reflexivity|].
  intros Hr H7. apply update_scenario_idle.
  destruct (reachable_invariant self Hr) as (_ & -> & _). now rewrite H7.
Qed.

Lemma update_scenario_not_running_witness :
  update_scenario __init__ (1 / 60) (Np.zeros 6) = (__init__, [], Returned).
Proof.
  apply (proj1 (update_scenario_not_running __init__ (1 / 60) (Np.zeros 6))).
  reflexivity.
Defined.

(** C10. In every state reached from [setup_scenario] by [update_scenario]
    calls with non-negative steps, [_cube_grasped] is true exactly when the
    phase index is 2, 3 or 4; the flag is set by the call that enters phase 2
    and cleared by the call that enters phase 5; and a call moves the cube
    ([set_world_pose], computed by [_update_cube_position] from the joint
    positions) only when the flag holds after it. *)
Theorem cube_grasped_phases (s : ExampleScenario.t) (step : R)
    (q : Np.ndarray) :
  reachable s -> 0 <= step ->
  let s' := fst (fst (update_scenario s step q)) in
  let evs := snd (fst (update_scenario s step q)) in
  (_cube_grasped s = true <->
   _phase s = 2%Z \/ _phase s = 3%Z \/ _phase s = 4%Z) /\
  (_cube_grasped s' = true <->
   _phase s' = 2%Z \/ _phase s' = 3%Z \/ _phase s' = 4%Z) /\
  (_phase s = 1%Z -> _phase s' = 2%Z ->
   _cube_grasped s = false /\ _cube_grasped s' = true) /\
  (_phase s = 4%Z -> _phase s' = 5%Z ->
   _cube_grasped s = true /\ _cube_grasped s' = false) /\
  (forall e, In e evs -> is_set_world_pose e = true ->
     _cube_grasped s' = true /\ _update_cube_position s' q = Some e).
Proof.
  intros Hs Hstep s' evs.
  assert (Hs' : reachable s') by (apply reachable_update; assumption).
  assert (Hiff : forall x, reachable x ->
            (_cube_grasped x = true <->
             _phase x = 2%Z \/ _phase x = 3%Z \/ _phase x = 4%Z)).
  { intros x Hx. destruct (reachable_invariant x Hx) as (_ & _ & -> & _).
    split_phase; simpl; split; intros; try lia; try discriminate;
      reflexivity. }
  assert (Hval : forall x p, reachable x -> _phase x = p ->
            _cube_grasped x = ((2 <=? p)%Z && (p <=? 4)%Z)%bool).
  { intros x p Hx <-. apply (reachable_invariant x Hx). }
  split; [apply Hiff; exact Hs|]. split; [apply Hiff; exact Hs'|].
  split; [|split].
  - intros H1 H2. now rewrite (Hval s 1%Z), (Hval s' 2%Z).
  - intros H4 H5. now rewrite (Hval s 4%Z), (Hval s' 5%Z).
  - intros e Hin Hpose. subst evs.
    apply update_scenario_events in Hin. fold s' in Hin.
    destruct Hin as (_ & [(msg & ->)|[(_ & He)|(_ & Hg & Hu)]]).
    + discriminate.
    + apply execute_phase_inv in He. destruct He as (t' & d & _ & ->).
      discriminate.
    + auto.
Qed.

Lemma approaching_state :
  approaching =
  set_phase_time 0.0
    (set_phase 1 (set_phase_time (0.0 + 2) (set_time (0.0 + 2) started))).
Proof.
  unfold approaching. rewrite update_scenario_state. simpl.
  unfold advance. simpl.
  destruct (Rge_dec (0.0 + 2) 2.0) as [_|H]; [reflexivity|lra].
Qed.

(** The callback that enters phase 2 announces it, commands the grasp
    configuration and moves the cube. *)
Example grasp_tick :
  exists s v p,
    update_scenario approaching 2 (Np.zeros 6) =
    (s,
     [EPrint "Phase 2: Grasping cube"%string;
      EApplyAction [0.0; -0.3; 0.3; 0.0; 0.8; 0.0] v;
      ESetWorldPose p],
     Returned) /\
    _phase s = 2%Z /\ _cube_grasped s = true.
Proof.
  rewrite approaching_state, update_scenario_advance. simpl.
  unfold advance. simpl.
  destruct (Rge_dec (0.0 + 2) 2.0) as [_|H]; [|lra]. simpl.
  unfold _execute_phase. simpl.
  destruct (Req_dec_T 2.0 0) as [H|_]; [lra|]. simpl.
  do 3 eexists. split; [reflexivity|]. split; reflexivity.
Qed.

End UpdateScenario.

(** ** [UIBuilder._reset_scenario] *)

Section ResetScenario.

(** C8. When the articulation or the cuboid of the panel is [None],
    [_reset_scenario] prints its warning and returns: the panel, and so the
    scenario it holds, is unchanged, and nothing of [teardown_scenario] or
    [setup_scenario] happens.  No other check guards the method: with both
    objects set it goes straight through teardown and setup. *)
Theorem reset_scenario_unset (self : UIBuilder.t) :
  (UIBuilder._articulation self = None \/ UIBuilder._cuboid self = None ->
   UIBuilder._reset_scenario self =
   (self,
    [EPrint "Warning: Cannot reset scenario - objects not loaded"%string])) /\
  (forall a c,
     UIBuilder._articulation self = Some a ->
     UIBuilder._cuboid self = Some c ->
     UIBuilder._reset_scenario self =
     (UIBuilder.mk (Some a) (Some c)
        (fst (setup_scenario
                (teardown_scenario (UIBuilder._scenario self)) a c))
        (UIBuilder._world self),
      snd (setup_scenario
             (teardown_scenario (UIBuilder._scenario self)) a c))).
Proof.
  unfold UIBuilder._reset_scenario. split.
  - intros [H|H]; rewrite H; [reflexivity|].
    destruct (UIBuilder._articulation self); reflexivity.
  - intros a c -> ->. reflexivity.
Qed.

Lemma reset_scenario_unset_witness :
  UIBuilder._reset_scenario UIBuilder._on_init =
  (UIBuilder._on_init,
   [EPrint "Warning: Cannot reset scenario - objects not loaded"%string]).
Proof.
  apply (proj1 (reset_scenario_unset UIBuilder._on_init)).
  left. reflexivity.
Defined.

End ResetScenario.

(** ** Further properties of the interpolator *)

Section InterpolatorBounds.

Lemma smooth_t_range (t : R) : 0 <= smooth_t t <= 1.
Proof.
  unfold smooth_t. pose proof (COS_bound (t * PI)). lra.
Qed.

Lemma smooth_t_even (t : R) : smooth_t (- t) = smooth_t t.
Proof.
  unfold smooth_t. replace (- t * PI) with (- (t * PI)) by ring.
  now rewrite cos_neg.
Qed.

Lemma smooth_t_period (t : R) : smooth_t (t + 2) = smooth_t t.
Proof.
  unfold smooth_t. replace ((t + 2) * PI) with (t * PI + 2 * PI) by ring.
  rewrite cos_plus, cos_2PI, sin_2PI. f_equal. ring.
Qed.

Lemma blend_between (a b k : R) :
  0 <= k <= 1 -> Rmin a b <= a + (b - a) * k <= Rmax a b.
Proof.
  intros Hk. unfold Rmin, Rmax. destruct (Rle_dec a b); nra.
Qed.

(** X1. Whatever [t] is, also outside [[0, 1]], every entry of the
    interpolated configuration lies between the corresponding entries of
    the two endpoints. *)
Theorem interpolate_positions_between (start end_ : Np.ndarray) (t : R) :
  length start = length end_ ->
  exists v,
    _interpolate_positions start end_ t = Some v /\
    length v = length start /\
    forall i, (i < length start)%nat ->
      Rmin (nth i start 0) (nth i end_ 0) <= nth i v 0
      <= Rmax (nth i start 0) (nth i end_ 0).
Proof.
  intros H. eexists. split; [apply interpolate_positions_zip; exact H|].
  split; [apply zip_with_length; exact H|].
  intros i Hi. rewrite zip_with_nth by assumption.
  apply blend_between, smooth_t_range.
Qed.

Lemma interpolate_positions_between_witness :
  exists v,
    _interpolate_positions [0; 1] [1; -3] 5 = Some v /\
    length v = 2%nat /\
    forall i, (i < 2)%nat ->
      Rmin (nth i [0; 1] 0) (nth i [1; -3] 0) <= nth i v 0
      <= Rmax (nth i [0; 1] 0) (nth i [1; -3] 0).
Proof.
  apply (interpolate_positions_between [0; 1] [1; -3] 5). reflexivity.
Defined.

(** X2. The interpolator cannot tell a progress [t] from [- t] nor from
    [t + 2]: a negative or overshooting progress commands a point of the same
    path, whatever the shapes of the endpoints. *)
Theorem interpolate_positions_even_periodic (start end_ : Np.ndarray)
    (t : R) :
  _interpolate_positions start end_ (- t) = _interpolate_positions start end_ t
  /\
  _interpolate_positions start end_ (t + 2)
  = _interpolate_positions start end_ t.
Proof.
  unfold _interpolate_positions.
  now rewrite smooth_t_even, smooth_t_period.
Qed.

Lemma derivable_pt_lim_eq (f g : R -> R) (x l l' : R) :
  (forall y, f y = g y) -> l = l' ->
  derivable_pt_lim f x l -> derivable_pt_lim g x l'.
Proof.
  intros Hfg <- H eps Heps. destruct (H eps Heps) as (delta & Hd).
  exists delta. intros h Hh Hlt. rewrite <- !Hfg. now apply Hd.
Qed.

Lemma smooth_t_derivative (t : R) :
  derivable_pt_lim smooth_t t (PI / 2 * sin (t * PI)).
Proof.
  pose proof (derivable_pt_lim_mult id (fct_cte PI) t 1 0
                (derivable_pt_lim_id t) (derivable_pt_lim_const PI t)) as H1.
  pose proof (derivable_pt_lim_comp (id * fct_cte PI)%F cos t _ _ H1
                (derivable_pt_lim_cos _)) as H2.
  pose proof (derivable_pt_lim_minus (fct_cte 1) _ t _ _
                (derivable_pt_lim_const 1 t) H2) as H3.
  pose proof (derivable_pt_lim_scal _ (/ 2) t _ H3) as H4.
  eapply derivable_pt_lim_eq; [| |exact H4].
  - intros y. unfold smooth_t, mult_real_fct, minus_fct, comp, mult_fct,
      fct_cte, id. field.
  - unfold mult_fct, fct_cte, id. field.
Qed.

(** X24. The easing starts and ends at rest: [smooth_t] has derivative
    [PI / 2 * sin (t * PI)] at every [t], which is 0 at [t = 0] and at
    [t = 1] and positive strictly in between. *)
Theorem smooth_t_eases :
  (forall t, derivable_pt_lim smooth_t t (PI / 2 * sin (t * PI))) /\
  derivable_pt_lim smooth_t 0 0 /\
  derivable_pt_lim smooth_t 1 0 /\
  (forall t, 0 < t < 1 -> 0 < PI / 2 * sin (t * PI)).
Proof.
  assert (Hpi : 0 < PI) by apply PI_RGT_0.
  split; [exact smooth_t_derivative|]. split; [|split].
  - eapply derivable_pt_lim_eq; [reflexivity| |apply smooth_t_derivative].
    rewrite Rmult_0_l, sin_0. ring.
  - eapply derivable_pt_lim_eq; [reflexivity| |apply smooth_t_derivative].
    rewrite Rmult_1_l, sin_PI. ring.
  - intros t (H0 & H1). apply Rmult_lt_0_compat; [lra|].
    apply sin_gt_0; nra.
Qed.

Lemma smooth_t_eases_witness : 0 < PI / 2 * sin (1 / 2 * PI).
Proof.
  apply (proj2 (proj2 (proj2 smooth_t_eases)) (1 / 2)). lra.
Defined.

End InterpolatorBounds.

(** ** Further properties of [_execute_phase] *)

Section ExecutePhaseBounds.

(** The target of a configured scenario: the common endpoint of a holding
    phase, the blend of the two endpoints otherwise. *)
Lemma execute_phase_target (self : ExampleScenario.t) (n : nat)
    (step : R) (q : Np.ndarray) :
  configured self n -> length q = n ->
  exists a b target,
    phase_endpoints self = Some (a, b) /\
    length a = n /\ length b = n /\
    (target = a /\ a = b \/
     target =
     Np.zip_with (fun s e => s + (e - s) * smooth_t (progress self)) a b) /\
    _execute_phase self step q =
      Some (EApplyAction target
              (Np.clip (Np.div_scalar (Np.zip_with Rminus target q)
                                      (Rmax step 0.001)) (- (2.0)) 2.0)).
Proof.
  intros [Hart Hdur Hh Hp Hg Hl Hpl] Hq.
  unfold _execute_phase, phase_endpoints.
  destruct (Req_dec_T (_phase_duration self) 0) as [E|_]; [lra|].
  destruct (ExampleScenario._articulation self) as [art|]; [|congruence].
  destruct (_home_position self) as [h|]; [|contradiction].
  destruct (_pre_grasp_position self) as [p|]; [|contradiction].
  destruct (_grasp_position self) as [g|]; [|contradiction].
  destruct (_lift_position self) as [l|]; [|contradiction].
  destruct (_place_position self) as [pl|]; [|contradiction].
  simpl in *.
  repeat match goal with
  | |- context [(?x =? ?y)%Z] => destruct (x =? y)%Z
  end.
  all: simpl.
  all: repeat rewrite interpolate_positions_zip by congruence.
  all: simpl.
  all: unfold Np.sub.
  all: rewrite broadcast_same_shape by (try rewrite zip_with_length; congruence).
  all: simpl.
  all: do 3 eexists; split; [reflexivity|].
  all: do 2 (split; [congruence|]).
  all: split; [|reflexivity].
  all: first [right; reflexivity | left; split; reflexivity].
Qed.

(** X3. Whatever the phase, the elapsed time and the step, every entry of
    the target that [_execute_phase] commands lies between the corresponding
    entries of the phase's two endpoint configurations. *)
Theorem execute_phase_target_between (self : ExampleScenario.t) (n : nat)
    (step : R) (q : Np.ndarray) :
  configured self n -> length q = n ->
  exists a b target v,
    phase_endpoints self = Some (a, b) /\
    _execute_phase self step q = Some (EApplyAction target v) /\
    length target = n /\
    forall i, (i < n)%nat ->
      Rmin (nth i a 0) (nth i b 0) <= nth i target 0
      <= Rmax (nth i a 0) (nth i b 0).
Proof.
  intros Hc Hq.
  destruct (execute_phase_target self n step q Hc Hq)
    as (a & b & target & Hab & Ha & Hb & Ht & Hrun).
  exists a, b, target. eexists. split; [exact Hab|]. split; [exact Hrun|].
  destruct Ht as [ (-> & <-) | -> ].
  - split; [exact Ha|]. intros i _.
    unfold Rmin, Rmax. destruct (Rle_dec (nth i a 0) (nth i a 0)); lra.
  - split; [rewrite zip_with_length; congruence|].
    intros i Hi. rewrite zip_with_nth by congruence.
    apply blend_between, smooth_t_range.
Qed.

Lemma execute_phase_target_between_witness :
  exists a b target v,
    phase_endpoints rewound = Some (a, b) /\
    _execute_phase rewound (-1) (Np.zeros 6)
      = Some (EApplyAction target v) /\
    length target = 6%nat /\
    forall i, (i < 6)%nat ->
      Rmin (nth i a 0) (nth i b 0) <= nth i target 0
      <= Rmax (nth i a 0) (nth i b 0).
Proof.
  apply (execute_phase_target_between rewound 6 (-1) (Np.zeros 6)).
  - apply configured_update. exact configured_started.
  - reflexivity.
Defined.

Lemma clip_sign (d m : R) :
  0 < m ->
  let v := Rmin (Rmax (d / m) (- (2.0))) 2.0 in
  0 <= v * d /\ (v = 0 <-> d = 0) /\ Rabs v <= Rabs d / m.
Proof.
  intros Hm v.
  assert (Hd : d = d / m * m) by (field; lra).
  assert (Hq : Rabs d / m = Rabs (d / m)).
  { unfold Rdiv. rewrite Rabs_mult, (Rabs_right (/ m)); [reflexivity|].
    left. now apply Rinv_0_lt_compat. }
  rewrite Hq. subst v. set (x := d / m) in *.
  unfold Rmin, Rmax, Rabs.
  repeat destruct Rle_dec; repeat destruct Rcase_abs;
    repeat split; intros; try lra; try nra.
Qed.

(** X4. The commanded velocity of each joint points from the current position
    to the target: it has the sign of [target - current], it is zero exactly
    when the joint is at its target, and its magnitude never exceeds
    [|target - current| / max(step, 0.001)]. *)
Theorem execute_phase_velocity_direction (self : ExampleScenario.t)
    (n : nat) (step : R) (q : Np.ndarray) :
  configured self n -> length q = n ->
  exists target v,
    _execute_phase self step q = Some (EApplyAction target v) /\
    forall i, (i < n)%nat ->
      0 <= nth i v 0 * (nth i target 0 - nth i q 0) /\
      (nth i v 0 = 0 <-> nth i q 0 = nth i target 0) /\
      Rabs (nth i v 0)
      <= Rabs (nth i target 0 - nth i q 0) / Rmax step 0.001.
Proof.
  intros Hc Hq.
  destruct (execute_phase_configured self n step q Hc Hq)
    as (a & b & target & _ & _ & _ & Ht & Hrun & _).
  eexists _, _. split; [exact Hrun|]. intros i Hi.
  assert (Hz : length (Np.zip_with Rminus target q) = n)
    by (rewrite zip_with_length; congruence).
  unfold Np.clip, Np.div_scalar.
  rewrite map_nth_in by (rewrite length_map; lia).
  rewrite map_nth_in by lia.
  rewrite zip_with_nth by lia.
  assert (Hm : 0 < Rmax step 0.001).
  { apply Rlt_le_trans with 0.001; [lra|apply Rmax_r]. }
  destruct (clip_sign (nth i target 0 - nth i q 0) _ Hm) as (H1 & H2 & H3).
  split; [exact H1|]. split; [|exact H3].
  rewrite H2. split; intros; lra.
Qed.

Lemma execute_phase_velocity_direction_witness :
  exists target v,
    _execute_phase started (1 / 60) (Np.zeros 6)
      = Some (EApplyAction target v) /\
    forall i, (i < 6)%nat ->
      0 <= nth i v 0 * (nth i target 0 - nth i (Np.zeros 6) 0) /\
      (nth i v 0 = 0 <-> nth i (Np.zeros 6) 0 = nth i target 0) /\
      Rabs (nth i v 0)
      <= Rabs (nth i target 0 - nth i (Np.zeros 6) 0) / Rmax (1 / 60) 0.001.
Proof.
  apply (execute_phase_velocity_direction started 6 (1 / 60) (Np.zeros 6)).
  - exact configured_started.
  - reflexivity.
Defined.

Lemma configured_clock (self : ExampleScenario.t) (n : nat) (p : Z)
    (x : R) :
  configured self n -> configured (set_phase_time x (set_phase p self)) n.
Proof. intros []. split; assumption. Qed.

(** X5. The commanded path has no jump between phases: for each of the
    phases 0 to 5, what [_execute_phase] commands when the phase time has
    reached the duration is what it commands at time 0 of the next phase. *)
Theorem execute_phase_handover (self : ExampleScenario.t) (n : nat)
    (step : R) (q : Np.ndarray) :
  configured self n -> length q = n -> (0 <= _phase self <= 5)%Z ->
  _execute_phase (set_phase_time (_phase_duration self) self) step q =
  _execute_phase (set_phase_time 0 (set_phase (_phase self + 1) self)) step q.
Proof.
  intros Hc Hq Hp.
  assert (Hc1 : configured (set_phase_time (_phase_duration self) self) n)
    by (destruct Hc; split; assumption).
  pose proof (configured_clock self n (_phase self + 1) 0 Hc) as Hc2.
  destruct (execute_phase_configured _ n step q Hc1 Hq)
    as (a1 & b1 & t1 & Hab1 & _ & _ & _ & Hrun1 & _ & Hend).
  destruct (execute_phase_configured _ n step q Hc2 Hq)
    as (a2 & b2 & t2 & Hab2 & _ & _ & _ & Hrun2 & Hstart & _).
  rewrite Hrun1, Hrun2.
  assert (H1 : t1 = b1).
  { apply Hend, progress_at_end; simpl; [apply Hc|lra]. }
  assert (H2 : t2 = a2).
  { apply Hstart, progress_at_start; simpl; [apply Hc|reflexivity]. }
  subst t1 t2. enough (b1 = a2) by (subst; reflexivity).
  destruct Hc as [_ _ Hh Hpre Hg Hl Hpl].
  unfold phase_endpoints in Hab1, Hab2. simpl in Hab1, Hab2.
  destruct (_home_position self); [|contradiction].
  destruct (_pre_grasp_position self); [|contradiction].
  destruct (_grasp_position self); [|contradiction].
  destruct (_lift_position self); [|contradiction].
  destruct (_place_position self); [|contradiction].
  assert (Hcase : (_phase self = 0 \/ _phase self = 1 \/ _phase self = 2 \/
                   _phase self = 3 \/ _phase self = 4 \/ _phase self = 5)%Z)
    by lia.
  destruct Hcase as [E|[E|[E|[E|[E|E]]]]]; rewrite E in Hab1, Hab2;
    simpl in Hab1, Hab2; congruence.
Qed.

Lemma execute_phase_handover_witness :
  _execute_phase (set_phase_time (_phase_duration started) started)
    (1 / 60) (Np.zeros 6) =
  _execute_phase (set_phase_time 0 (set_phase (_phase started + 1) started))
    (1 / 60) (Np.zeros 6).
Proof.
  apply (execute_phase_handover started 6 (1 / 60) (Np.zeros 6)).
  - exact configured_started.
  - reflexivity.
  - simpl. lia.
Defined.

Lemma execute_phase_shape_mismatch (self : ExampleScenario.t) (step : R)
    (q h p : Np.ndarray) :
  _phase self = 0%Z ->
  _home_position self = Some h -> _pre_grasp_position self = Some p ->
  length p = 6%nat -> (6 < length h)%nat ->
  _execute_phase self step q = None.
Proof.
  intros Hph Hh Hp Hlp Hlh. unfold _execute_phase.
  destruct (Req_dec_T (_phase_duration self) 0); [reflexivity|].
  destruct (ExampleScenario._articulation self); [|reflexivity].
  rewrite Hph, Hh, Hp. simpl.
  unfold _interpolate_positions, Np.sub, Np.broadcast.
  replace (length p =? length h)%nat with false
    by (symmetry; apply Nat.eqb_neq; lia).
  destruct p as [|p0 [|p1 p']]; try discriminate.
  destruct h as [|h0 [|h1 h']]; simpl in Hlh; try lia.
  reflexivity.
Qed.

(** X6. [setup_scenario] provides for at most six joints.  With up to six
    the five configurations get one entry per joint; with more, the home
    configuration and the tabulated ones differ in shape, so that right
    after the setup [_execute_phase] raises, and the first call of
    [update_scenario], if its step is below the phase duration, raises
    without commanding anything. *)
Theorem setup_scenario_joint_limit (s0 : ExampleScenario.t)
    (a : Articulation) (c : Cuboid) (step : R) (q : Np.ndarray) :
  let s := fst (setup_scenario s0 a c) in
  ((num_dof a <= 6)%nat -> 0 < _phase_duration s0 ->
   configured s (num_dof a)) /\
  ((6 < num_dof a)%nat ->
   _execute_phase s step q = None /\
   (step < _phase_duration s0 ->
    snd (update_scenario s step q) = Raised /\
    snd (fst (update_scenario s step q)) = [])).
Proof.
  intros s. split; [intros Hn Hd; now apply configured_setup|].
  intros Hn.
  assert (Hm : forall x, _phase x = 0%Z ->
            _home_position x = _home_position s ->
            _pre_grasp_position x = _pre_grasp_position s ->
            _execute_phase x step q = None).
  { intros x Hph Hh Hp.
    eapply execute_phase_shape_mismatch;
      [exact Hph | rewrite Hh; reflexivity | rewrite Hp; reflexivity | |].
    - rewrite length_firstn. simpl. lia.
    - unfold Np.zeros. rewrite repeat_length. exact Hn. }
  split; [apply Hm; reflexivity|].
  intros Hstep. rewrite update_scenario_advance. simpl.
  unfold advance. simpl.
  destruct (Rge_dec (0.0 + step) (_phase_duration s0)) as [H|_]; [lra|].
  rewrite Hm by reflexivity. split; reflexivity.
Qed.

Lemma setup_scenario_joint_limit_witness :
  configured started 6 /\
  _execute_phase seven_axes (1 / 60) (Np.zeros 7) = None /\
  (1 / 60 < _phase_duration __init__ ->
   snd (update_scenario seven_axes (1 / 60) (Np.zeros 7)) = Raised /\
   snd (fst (update_scenario seven_axes (1 / 60) (Np.zeros 7))) = []).
Proof.
  split.
  - apply (proj1 (setup_scenario_joint_limit __init__ kr210 cuboid
                    (1 / 60) (Np.zeros 6))); simpl; [lia|lra].
  - apply (proj2 (setup_scenario_joint_limit __init__ {| num_dof := 7 |}
                    cuboid (1 / 60) (Np.zeros 7))).
    simpl. lia.
Defined.

End ExecutePhaseBounds.

(** ** Further properties of [update_scenario] *)

Section UpdateScenarioRuns.

Lemma run_cons (self : ExampleScenario.t) (step : R) (q : Np.ndarray)
    (rest : list Tick) :
  run self ((step, q) :: rest) =
  (fst (run (fst (fst (update_scenario self step q))) rest),
   snd (fst (update_scenario self step q))
   ++ snd (run (fst (fst (update_scenario self step q))) rest)).
Proof.
  simpl. destruct (update_scenario self step q) as [[s' evs] o]. simpl.
  destruct (run s' rest). reflexivity.
Qed.

Lemma update_scenario_frame (self : ExampleScenario.t) (step : R)
    (q : Np.ndarray) :
  let s := fst (fst (update_scenario self step q)) in
  _phase_duration s = _phase_duration self /\
  ExampleScenario._articulation s = ExampleScenario._articulation self /\
  _object s = _object self /\
  _home_position s = _home_position self /\
  _pre_grasp_position s = _pre_grasp_position self /\
  _grasp_position s = _grasp_position self /\
  _lift_position s = _lift_position self /\
  _place_position s = _place_position self.
Proof.
  simpl. rewrite update_scenario_state.
  destruct (_running_scenario self); [apply advance_frame|].
  repeat split.
Qed.

Lemma advance_time (self : ExampleScenario.t) (step : R) :
  _time (fst (fst (advance self step))) = _time self + step.
Proof.
  unfold advance. simpl.
  destruct (Rge_dec (_phase_time self + step) (_phase_duration self));
    split_phase; reflexivity.
Qed.

(** In a reachable state the phase time is below a positive duration. *)
Lemma reachable_phase_time_lt (s : ExampleScenario.t) :
  reachable s -> 0 < _phase_duration s -> _phase_time s < _phase_duration s.
Proof.
  induction 1 as [s0 a c|s step q Hs IH Hstep]; [simpl; intros; lra|].
  destruct (update_scenario_frame s step q) as (Hd & _).
  simpl in Hd. rewrite Hd. intros Hpos. specialize (IH Hpos).
  rewrite update_scenario_state.
  destruct (_running_scenario s); [|exact IH].
  destruct (advance_cases s step) as [(_ & _ & -> & _)|(Hlt & _ & -> & _)];
    lra.
Qed.

(** X7. Under [update_scenario] with non-negative steps the phase time stays
    in [[0, duration)]: the progress that [_execute_phase] sees is the plain
    quotient [elapsed / duration], at least 0 and strictly below 1, so its
    [min(..., 1.0)] never cuts in and no phase is ever commanded at
    [t = 1]. *)
Theorem reachable_progress_below_one (s : ExampleScenario.t) :
  reachable s -> 0 < _phase_duration s ->
  0 <= _phase_time s < _phase_duration s /\
  progress s = _phase_time s / _phase_duration s /\
  0 <= progress s < 1.
Proof.
  intros Hr Hd.
  pose proof (reachable_phase_time_lt s Hr Hd) as Hlt.
  destruct (reachable_invariant s Hr) as (_ & _ & _ & H0).
  assert (Hq : 0 <= _phase_time s / _phase_duration s < 1).
  { split.
    - apply Rmult_le_pos; [exact H0|]. left. now apply Rinv_0_lt_compat.
    - apply Rmult_lt_reg_r with (_phase_duration s); [exact Hd|].
      unfold Rdiv. rewrite Rmult_assoc, Rinv_l by lra. lra. }
  assert (Hp : progress s = _phase_time s / _phase_duration s).
  { unfold progress. apply Rmin_left. lra. }
  split; [lra|]. split; [exact Hp|]. rewrite Hp. exact Hq.
Qed.

Lemma reachable_progress_below_one_witness :
  0 <= _phase_time approaching < _phase_duration approaching /\
  progress approaching = _phase_time approaching / _phase_duration approaching
  /\ 0 <= progress approaching < 1.
Proof.
  apply (reachable_progress_below_one approaching).
  - unfold approaching. apply reachable_update; [exact reachable_started|lra].
  - rewrite approaching_state. simpl. lra.
Defined.

(** X8. The clock of the scenario is open loop: the state after a call of
    [update_scenario] is the same whatever joint positions the articulation
    reports, also when the call raises because of them; and no call changes
    the handles, the five configurations or the phase duration. *)
Theorem update_scenario_open_loop (self : ExampleScenario.t) (step : R)
    (q q' : Np.ndarray) :
  let s := fst (fst (update_scenario self step q)) in
  s = fst (fst (update_scenario self step q')) /\
  _phase_duration s = _phase_duration self /\
  ExampleScenario._articulation s = ExampleScenario._articulation self /\
  _object s = _object self /\
  _home_position s = _home_position self /\
  _pre_grasp_position s = _pre_grasp_position self /\
  _grasp_position s = _grasp_position self /\
  _lift_position s = _lift_position self /\
  _place_position s = _place_position self.
Proof.
  split; [now rewrite !update_scenario_state|].
  apply update_scenario_frame.
Qed.

Lemma update_scenario_running_before (self : ExampleScenario.t) (step : R)
    (q : Np.ndarray) :
  _running_scenario (fst (fst (update_scenario self step q))) = true ->
  _running_scenario self = true.
Proof.
  rewrite update_scenario_state.
  destruct (_running_scenario self) eqn:H; [reflexivity|].
  intros H'. congruence.
Qed.

Lemma update_scenario_time (self : ExampleScenario.t) (step : R)
    (q : Np.ndarray) :
  _time (fst (fst (update_scenario self step q))) =
  if _running_scenario self then _time self + step else _time self.
Proof.
  rewrite update_scenario_state.
  destruct (_running_scenario self); [apply advance_time|reflexivity].
Qed.

(** X9. While the scenario runs, [_time] is the total of the steps received:
    if the scenario is still running after a sequence of callbacks, its
    [_time] has grown by exactly the sum of their steps (and it was running
    all along); a scenario that is not running does not count time. *)
Theorem run_time_bookkeeping (self : ExampleScenario.t)
    (ticks : list Tick) :
  (_running_scenario (fst (run self ticks)) = true ->
   _running_scenario self = true /\
   _time (fst (run self ticks)) = _time self + sum_steps ticks) /\
  (_running_scenario self = false ->
   _time (fst (run self ticks)) = _time self).
Proof.
  split.
  - revert self. induction ticks as [|[step q] rest IH]; intros self Hrun.
    + simpl in *. split; [exact Hrun|lra].
    + rewrite run_cons in *. simpl fst in *.
      destruct (IH _ Hrun) as (Hmid & Ht).
      pose proof (update_scenario_running_before _ _ _ Hmid) as H0.
      split; [exact H0|]. rewrite Ht, update_scenario_time, H0.
      simpl. lra.
  - intros H. now rewrite run_idle.
Qed.

Lemma run_time_bookkeeping_witness :
  (_running_scenario started = true /\
   _time (fst (run started [(1, Np.zeros 6)]))
   = _time started + sum_steps [(1, Np.zeros 6)]) /\
  _time (fst (run __init__ [(1, []); (2, [])])) = _time __init__.
Proof.
  split.
  - apply (proj1 (run_time_bookkeeping started [(1, Np.zeros 6)])).
    rewrite run_cons. simpl fst. rewrite update_scenario_state. simpl.
    unfold advance. simpl.
    destruct (Rge_dec (0.0 + 1) 2.0) as [H|_]; [lra|reflexivity].
  - apply (proj2 (run_time_bookkeeping __init__ [(1, []); (2, [])])).
    reflexivity.
Defined.

Lemma update_scenario_phase_step (self : ExampleScenario.t) (step : R)
    (q : Np.ndarray) :
  let s := fst (fst (update_scenario self step q)) in
  (_phase self <= _phase s <= _phase self + 1)%Z.
Proof.
  simpl. rewrite update_scenario_state.
  destruct (_running_scenario self); [|lia].
  destruct (advance_cases self step) as [(_ & -> & _)|(_ & -> & _)]; lia.
Qed.

(** X10. A call of [update_scenario] advances the scenario by at most one
    phase however large its step is, the time beyond the duration being
    dropped; so [n] calls advance it by at most [n] phases, and a scenario
    that was set up needs at least seven calls to complete. *)
Theorem run_phase_bound (self : ExampleScenario.t) (ticks : list Tick) :
  (_phase self <= _phase (fst (run self ticks))
   <= _phase self + Z.of_nat (length ticks))%Z.
Proof.
  revert self. induction ticks as [|[step q] rest IH]; intros self.
  - simpl. lia.
  - rewrite run_cons. simpl fst.
    pose proof (update_scenario_phase_step self step q) as H1.
    pose proof (IH (fst (fst (update_scenario self step q)))) as H2.
    simpl in H1. simpl length. lia.
Qed.

(** X11. Callbacks whose step is at least the phase duration advance a
    scenario that was set up by exactly one phase each until it completes:
    after [n] of them the phase is [min(phase + n, 7)]. *)
Theorem run_full_steps (self : ExampleScenario.t) (ticks : list Tick) :
  reachable self -> 0 <= _phase_duration self ->
  Forall (fun tick => _phase_duration self <= fst tick) ticks ->
  _phase (fst (run self ticks))
  = Z.min (_phase self + Z.of_nat (length ticks)) 7.
Proof.
  intros Hr Hd Hall. revert self Hr Hd Hall.
  induction ticks as [|[step q] rest IH]; intros self Hr Hd Hall.
  - simpl. destruct (reachable_invariant self Hr) as (Hp & _). lia.
  - inversion Hall as [|tick rest' Hstep Hrest]; subst. simpl in Hstep.
    rewrite run_cons. simpl fst.
    set (s := fst (fst (update_scenario self step q))).
    assert (Hs : reachable s) by (apply reachable_update; [exact Hr|lra]).
    destruct (update_scenario_frame self step q) as (Hdur & _).
    fold s in Hdur.
    rewrite IH; [|exact Hs|rewrite Hdur; exact Hd|rewrite Hdur; exact Hrest].
    destruct (reachable_invariant self Hr) as (Hp & Hrun & _ & Ht).
    assert (Hphase : _phase s
              = if _running_scenario self then (_phase self + 1)%Z
                else _phase self).
    { unfold s. rewrite update_scenario_state.
      destruct (_running_scenario self); [|reflexivity].
      destruct (advance_cases self step) as [(_ & H & _)|(Hlt & _)];
        [exact H|lra]. }
    rewrite Hphase, Hrun. simpl length.
    destruct (Z.eqb_spec (_phase self) 7); simpl; lia.
Qed.

Lemma run_full_steps_witness :
  _phase (fst (run started (repeat (2, Np.zeros 6) 7)))
  = Z.min (_phase started + Z.of_nat (length (repeat (2, Np.zeros 6) 7))) 7.
Proof.
  apply (run_full_steps started (repeat (2, Np.zeros 6) 7)).
  - exact reachable_started.
  - simpl. lra.
  - simpl. repeat constructor; simpl; lra.
Defined.

Lemma update_cube_position_some (self : ExampleScenario.t)
    (q : Np.ndarray) :
  ExampleScenario._articulation self <> None -> _object self <> None ->
  (2 <= length q)%nat ->
  exists p, _update_cube_position self q = Some (ESetWorldPose p).
Proof.
  intros Ha Ho Hq. unfold _update_cube_position.
  destruct (ExampleScenario._articulation self); [|congruence].
  destruct (_object self); [|congruence].
  destruct q as [|j0 [|j1 q']]; simpl in Hq; try lia.
  simpl. eauto.
Qed.

Lemma count_events_app (kind : Event -> bool) (l l' : list Event) :
  count_events kind (l ++ l') = (count_events kind l + count_events kind l')%nat.
Proof. unfold count_events. now rewrite filter_app, length_app. Qed.

Lemma count_events_prints (kind : Event -> bool) (l : list Event) :
  (forall msg, kind (EPrint msg) = false) ->
  (forall e, In e l -> exists msg, e = EPrint msg) ->
  count_events kind l = 0%nat.
Proof.
  intros Hk. unfold count_events. induction l as [|e l IH]; intros H.
  - reflexivity.
  - simpl. destruct (H e (or_introl eq_refl)) as (msg & ->). rewrite Hk.
    apply IH. intros e' He'. apply H. now right.
Qed.

(** X12. A call of [update_scenario] on a scenario whose configurations and
    reported joint positions have one shape, with at least two joints and
    the cube set, never raises.  It issues exactly one [apply_action] if
    the scenario is running after the call and none otherwise, and exactly
    one [set_world_pose] if it is then running with the cube grasped and
    none otherwise. *)
Theorem update_scenario_returns (self : ExampleScenario.t) (n : nat)
    (step : R) (q : Np.ndarray) :
  configured self n -> length q = n -> (2 <= n)%nat ->
  _object self <> None ->
  let s' := fst (fst (update_scenario self step q)) in
  let evs := snd (fst (update_scenario self step q)) in
  snd (update_scenario self step q) = Returned /\
  count_events is_apply_action evs
  = (if _running_scenario s' then 1 else 0)%nat /\
  count_events is_set_world_pose evs
  = (if (_running_scenario s' && _cube_grasped s')%bool then 1 else 0)%nat.
Proof.
  intros Hc Hq Hn Ho. simpl. rewrite update_scenario_advance.
  destruct (_running_scenario self) eqn:Hrun; simpl;
    [|rewrite Hrun; auto].
  pose proof (advance_cases self step) as Hcase.
  pose proof (advance_prints self step) as Hpr.
  pose proof (advance_frame self step) as Hfr.
  destruct (advance self step) as [[s pr] c]. simpl in *.
  destruct Hfr as (Hd & Hart & Hobj & Hh & Hp & Hg' & Hl & Hpl).
  assert (Hcs : configured s n) by (destruct Hc; split; congruence).
  assert (Hr : _running_scenario s = negb c).
  { rewrite Hrun in Hcase.
    destruct Hcase as [(_ & _ & _ & _ & -> & _)|(_ & _ & _ & -> & -> & _)];
      reflexivity. }
  assert (Hpa : count_events is_apply_action pr = 0%nat)
    by (apply count_events_prints; [reflexivity|exact Hpr]).
  assert (Hpw : count_events is_set_world_pose pr = 0%nat)
    by (apply count_events_prints; [reflexivity|exact Hpr]).
  destruct (execute_phase_configured s n step q Hcs Hq)
    as (? & ? & target & _ & _ & _ & _ & -> & _).
  destruct (update_cube_position_some s q) as (p & ->);
    [apply Hcs | congruence | lia |].
  destruct c; simpl in *; [rewrite Hr; simpl; auto|].
  destruct (_cube_grasped s) eqn:Hg; simpl;
    rewrite Hr, Hg, !count_events_app, Hpa, Hpw; auto.
Qed.

Lemma update_scenario_returns_witness :
  let s' := fst (fst (update_scenario started (1 / 60) (Np.zeros 6))) in
  let evs := snd (fst (update_scenario started (1 / 60) (Np.zeros 6))) in
  snd (update_scenario started (1 / 60) (Np.zeros 6)) = Returned /\
  count_events is_apply_action evs
  = (if _running_scenario s' then 1 else 0)%nat /\
  count_events is_set_world_pose evs
  = (if (_running_scenario s' && _cube_grasped s')%bool then 1 else 0)%nat.
Proof.
  apply (update_scenario_returns started 6 (1 / 60) (Np.zeros 6)).
  - exact configured_started.
  - reflexivity.
  - lia.
  - discriminate.
Defined.

(** X13. Whenever [_update_cube_position] moves the cube, it puts it on the
    sphere of radius 1.5 around the point [(0, 0, 0.5)], so between the
    heights -1 and 2. *)
Theorem update_cube_position_sphere (self : ExampleScenario.t)
    (q : Np.ndarray) (e : Event) :
  _update_cube_position self q = Some e ->
  exists x y z,
    e = ESetWorldPose [x; y; z] /\
    x * x + y * y + (z - 0.5) * (z - 0.5) = 1.5 * 1.5 /\
    -1 <= z <= 2.
Proof.
  unfold _update_cube_position.
  destruct (ExampleScenario._articulation self); [|discriminate].
  destruct q as [|j0 [|j1 q']]; simpl; try discriminate.
  destruct (_object self); simpl; [|discriminate].
  intros [= <-]. do 3 eexists. split; [reflexivity|].
  pose proof (sin2_cos2 j0) as H0. pose proof (sin2_cos2 j1) as H1.
  pose proof (SIN_bound j1) as Hb. unfold Rsqr in *.
  split; [|lra].
  replace ((0.0 + 1.5 * sin j0 * cos j1) * (0.0 + 1.5 * sin j0 * cos j1)
           + (0.0 + 1.5 * cos j0 * cos j1) * (0.0 + 1.5 * cos j0 * cos j1)
           + (0.0 + 1.5 * sin j1 + 0.5 - 0.5)
             * (0.0 + 1.5 * sin j1 + 0.5 - 0.5))
    with (1.5 * 1.5 * ((sin j0 * sin j0 + cos j0 * cos j0) * (cos j1 * cos j1)
                       + sin j1 * sin j1)) by lra.
  rewrite H0, Rmult_1_l, Rplus_comm, H1. lra.
Qed.

Lemma update_cube_position_sphere_witness :
  exists x y z,
    ESetWorldPose
      [0.0 + 1.5 * sin 0 * cos 0; 0.0 + 1.5 * cos 0 * cos 0;
       0.0 + 1.5 * sin 0 + 0.5]
    = ESetWorldPose [x; y; z] /\
    x * x + y * y + (z - 0.5) * (z - 0.5) = 1.5 * 1.5 /\
    -1 <= z <= 2.
Proof.
  apply (update_cube_position_sphere started (Np.zeros 6)). reflexivity.
Defined.

(** X14. [_update_cube_position] raises exactly when the articulation is not
    set, the cube is not set, or fewer than two joint positions are
    reported. *)
Theorem update_cube_position_raises (self : ExampleScenario.t)
    (q : Np.ndarray) :
  _update_cube_position self q = None <->
  ExampleScenario._articulation self = None \/ (length q < 2)%nat \/
  _object self = None.
Proof.
  unfold _update_cube_position.
  destruct (ExampleScenario._articulation self); simpl; [|tauto].
  destruct q as [|j0 [|j1 q']]; simpl;
    try (split; [intros _; right; left; lia|reflexivity]).
  destruct (_object self); simpl; split; intros H; try discriminate; auto.
  destruct H as [H|[H|H]]; try discriminate. lia.
Qed.

Lemma update_cube_position_raises_witness :
  _update_cube_position started [0] = None.
Proof.
  apply (proj2 (update_cube_position_raises started [0])).
  right. left. simpl. lia.
Defined.

End UpdateScenarioRuns.

(** ** Life cycle of a scenario object *)

Section LifeCycle.

Lemma constructed_phase_duration (s : ExampleScenario.t) :
  constructed s -> _phase_duration s = 2.0.
Proof.
  induction 1 as [|s a c _ IH|s _ IH|s step q _ IH]; try exact IH.
  - reflexivity.
  - destruct (update_scenario_frame s step q) as (-> & _). exact IH.
Qed.

Lemma teardown_setup_eq (s : ExampleScenario.t) (a : Articulation)
    (c : Cuboid) :
  constructed s ->
  setup_scenario (teardown_scenario s) a c = setup_scenario __init__ a c.
Proof.
  intros H. pose proof (constructed_phase_duration s H) as Hd.
  unfold setup_scenario, teardown_scenario. simpl. now rewrite Hd.
Qed.

(** X15. [_phase_duration] is assigned by [__init__] only: it is 2.0 in
    every state the class can produce, so the division in [_execute_phase]
    never fails. *)
Theorem constructed_duration (s : ExampleScenario.t) :
  constructed s -> _phase_duration s = 2.0.
Proof. apply constructed_phase_duration. Qed.

Lemma constructed_duration_witness : _phase_duration approaching = 2.0.
Proof.
  apply (constructed_duration approaching).
  apply constructed_update, constructed_setup, constructed_init.
Defined.

(** X16. Whatever a scenario object has been through, [teardown_scenario]
    followed by [setup_scenario] gives the state and the events that
    [setup_scenario] gives on a new object; [setup_scenario] alone gives
    that state except for [_time], which it leaves as it was. *)
Theorem teardown_setup_fresh (s : ExampleScenario.t) (a : Articulation)
    (c : Cuboid) :
  constructed s ->
  setup_scenario (teardown_scenario s) a c = setup_scenario __init__ a c /\
  fst (setup_scenario s a c)
  = set_time (_time s) (fst (setup_scenario __init__ a c)).
Proof.
  intros H. split; [now apply teardown_setup_eq|].
  pose proof (constructed_phase_duration s H) as Hd.
  unfold setup_scenario, set_time. simpl. now rewrite Hd.
Qed.

Lemma teardown_setup_fresh_witness :
  setup_scenario (teardown_scenario approaching) kr210 cuboid
  = setup_scenario __init__ kr210 cuboid /\
  fst (setup_scenario approaching kr210 cuboid)
  = set_time (_time approaching) (fst (setup_scenario __init__ kr210 cuboid)).
Proof.
  apply (teardown_setup_fresh approaching kr210 cuboid).
  apply constructed_update, constructed_setup, constructed_init.
Defined.

End LifeCycle.

(** ** The panel *)

Section Panel.

Lemma advance_no_warning (self : ExampleScenario.t) (step : R) :
  ~ In (EPrint "Warning: Cannot reset scenario - objects not loaded"%string)
       (snd (fst (advance self step))).
Proof.
  unfold advance. simpl.
  destruct (Rge_dec (_phase_time self + step) (_phase_duration self));
    split_phase; simpl; intros Hin; intuition discriminate.
Qed.

Lemma update_scenario_no_warning (self : ExampleScenario.t) (step : R)
    (q : Np.ndarray) :
  ~ In (EPrint "Warning: Cannot reset scenario - objects not loaded"%string)
       (snd (fst (update_scenario self step q))).
Proof.
  rewrite update_scenario_advance.
  destruct (_running_scenario self); simpl; [|tauto].
  pose proof (advance_no_warning self step) as Hpr.
  destruct (advance self step) as [[s pr] c]. simpl in *.
  destruct c; simpl; [exact Hpr|].
  destruct (_execute_phase s step q) as [a|] eqn:Ha; simpl; [|exact Hpr].
  destruct (execute_phase_inv s step q a Ha) as (t' & d & _ & ->).
  destruct (_cube_grasped s); simpl.
  - destruct (_update_cube_position s q) as [m|] eqn:Hm; simpl.
    + destruct (update_cube_position_inv s q m Hm) as (p & ->).
      intros H. apply in_app_or in H. simpl in H. intuition discriminate.
    + intros H. apply in_app_or in H. simpl in H. intuition discriminate.
  - intros H. apply in_app_or in H. simpl in H. intuition discriminate.
Qed.

Lemma reset_scenario_set (b : UIBuilder.t) (a : Articulation) (c : Cuboid) :
  UIBuilder._articulation b = Some a -> UIBuilder._cuboid b = Some c ->
  constructed (UIBuilder._scenario b) ->
  UIBuilder._reset_scenario b =
  (UIBuilder.mk (Some a) (Some c)
     (fst (setup_scenario ExampleScenario.__init__ a c))
     (UIBuilder._world b),
   snd (setup_scenario ExampleScenario.__init__ a c)).
Proof.
  intros Ha Hc Hs. unfold UIBuilder._reset_scenario. rewrite Ha, Hc.
  rewrite (teardown_setup_eq _ a c Hs). reflexivity.
Qed.

Lemma fire_invariant (p : UIPanel.t) (cb : UIPanel.Callback) :
  panel_invariant p -> panel_invariant (fst (fst (UIPanel.fire p cb))).
Proof.
  intros (Ha & Hc & Hs & Hr). unfold panel_invariant in *.
  destruct cb as [|dof| | | |step q|ty|ty]; simpl.
  - auto.
  - unfold UIPanel._on_load_world.
    rewrite (reset_scenario_set _ {| num_dof := dof |}
               {| world_position := [0.6; 0.3; 0.3] |})
      by (try reflexivity; exact Hs).
    destruct (UIPanel._scenario_state_btn p); panel_fields;
      (repeat split; try discriminate;
       try (apply constructed_setup, constructed_init)).
  - unfold UIPanel._on_reset_world.
    destruct (UIBuilder._world (UIPanel.builder p)) as [w|] eqn:Hw;
      [|simpl; rewrite Hw; auto].
    destruct (UIBuilder._articulation (UIPanel.builder p)) as [a|] eqn:Ea;
      [|destruct Ha as (_ & Ha); now specialize (Ha eq_refl)].
    destruct (UIBuilder._cuboid (UIPanel.builder p)) as [c|] eqn:Ec;
      [|destruct Hc as (_ & Hc); now specialize (Hc eq_refl)].
    rewrite (reset_scenario_set _ a c Ea Ec Hs).
    destruct (UIPanel._scenario_state_btn p); panel_fields; rewrite Hw;
      (repeat split; try discriminate;
       try (apply constructed_setup, constructed_init)).
  - auto.
  - auto.
  - unfold UIPanel._update_scenario, UIBuilder._update_scenario.
    pose proof (update_scenario_running_before
                  (UIBuilder._scenario (UIPanel.builder p)) step q) as Hb.
    pose proof (constructed_update
                  (UIBuilder._scenario (UIPanel.builder p)) step q Hs) as Hk.
    destruct (update_scenario (UIBuilder._scenario (UIPanel.builder p))
                step q) as [[s' evs] o].
    simpl in *. repeat split; try tauto; auto.
  - unfold UIPanel.on_timeline_event.
    destruct ty; simpl; auto.
    destruct (UIPanel._scenario_state_btn p); simpl; auto.
  - unfold UIPanel.on_stage_event, UIPanel._reset_extension.
    destruct ty; simpl; auto.
    destruct (UIPanel._scenario_state_btn p); simpl;
      (repeat split; try discriminate; try apply constructed_init).
Qed.

Lemma reachable_panel_invariant (p : UIPanel.t) :
  UIPanel.reachable p -> panel_invariant p.
Proof.
  induction 1 as [|p cb _ IH]; [|now apply fire_invariant].
  unfold panel_invariant. simpl.
  repeat split; try discriminate. apply constructed_init.
Qed.

(** X17. In every panel state the host can bring about, the three handles
    (world, articulation, cuboid) are set or unset together, and no callback
    ever prints the warning of [_reset_scenario]: its unset-objects branch
    is not reached through the panel. *)
Theorem panel_never_warns (p : UIPanel.t) (cb : UIPanel.Callback) :
  UIPanel.reachable p ->
  (UIBuilder._world (UIPanel.builder p) = None <->
   UIBuilder._articulation (UIPanel.builder p) = None) /\
  (UIBuilder._world (UIPanel.builder p) = None <->
   UIBuilder._cuboid (UIPanel.builder p) = None) /\
  ~ In UIPanel.warning (snd (fst (UIPanel.fire p cb))).
Proof.
  intros Hr. destruct (reachable_panel_invariant p Hr) as (Ha & Hc & Hs & _).
  split; [exact Ha|]. split; [exact Hc|].
  destruct cb as [|dof| | | |step q|ty|ty]; simpl.
  - tauto.
  - unfold UIPanel._on_load_world.
    rewrite (reset_scenario_set _ {| num_dof := dof |}
               {| world_position := [0.6; 0.3; 0.3] |})
      by (try reflexivity; exact Hs).
    destruct (UIPanel._scenario_state_btn p); no_warning.
  - unfold UIPanel._on_reset_world.
    destruct (UIBuilder._world (UIPanel.builder p)) as [w|] eqn:Hw;
      [|no_warning].
    destruct (UIBuilder._articulation (UIPanel.builder p)) as [a|] eqn:Ea;
      [|destruct Ha as (_ & Ha); now specialize (Ha eq_refl)].
    destruct (UIBuilder._cuboid (UIPanel.builder p)) as [c|] eqn:Ec;
      [|destruct Hc as (_ & Hc); now specialize (Hc eq_refl)].
    rewrite (reset_scenario_set _ a c Ea Ec Hs).
    destruct (UIPanel._scenario_state_btn p); no_warning.
  - no_warning.
  - no_warning.
  - unfold UIPanel._update_scenario, UIBuilder._update_scenario.
    pose proof (update_scenario_no_warning
                  (UIBuilder._scenario (UIPanel.builder p)) step q) as Hn.
    destruct (update_scenario (UIBuilder._scenario (UIPanel.builder p))
                step q) as [[s' evs] o].
    simpl in *. unfold UIPanel.warning. intros Hin.
    apply in_map_iff in Hin. destruct Hin as (e & [= ->] & Hin). auto.
  - unfold UIPanel.on_timeline_event.
    destruct ty; try no_warning.
    destruct (UIPanel._scenario_state_btn p); no_warning.
  - unfold UIPanel.on_stage_event, UIPanel._reset_extension.
    destruct ty; try no_warning.
    destruct (UIPanel._scenario_state_btn p);
      destruct (UIBuilder._world (UIPanel.builder p)); no_warning.
Qed.

Lemma panel_never_warns_witness :
  (UIBuilder._world (UIPanel.builder UIPanel.__init__) = None <->
   UIBuilder._articulation (UIPanel.builder UIPanel.__init__) = None) /\
  (UIBuilder._world (UIPanel.builder UIPanel.__init__) = None <->
   UIBuilder._cuboid (UIPanel.builder UIPanel.__init__) = None) /\
  ~ In UIPanel.warning
      (snd (fst (UIPanel.fire UIPanel.__init__ UIPanel.ResetClicked))).
Proof.
  apply (panel_never_warns UIPanel.__init__ UIPanel.ResetClicked).
  exact UIPanel.reachable_init.
Defined.

(** X18. Whatever the panel has been through, a click on LOAD leaves it with
    world, articulation and cuboid set and with the scenario in the state a
    new scenario has after [setup_scenario]; once the button exists the click
    returns normally and leaves the button enabled, before that it raises
    after having loaded everything. *)
Theorem load_world_fresh (p : UIPanel.t) (dof : nat) :
  UIPanel.reachable p ->
  let r := UIPanel._on_load_world p dof in
  UIPanel.builder (fst (fst r)) = UIPanel.builder (UIPanel.loaded dof) /\
  (UIPanel._scenario_state_btn p <> None ->
   fst (fst r) = UIPanel.loaded dof /\ snd r = Returned) /\
  (UIPanel._scenario_state_btn p = None ->
   UIPanel._scenario_state_btn (fst (fst r)) = None /\ snd r = Raised).
Proof.
  intros Hr. destruct (reachable_panel_invariant p Hr) as (_ & _ & Hs & _).
  simpl. unfold UIPanel._on_load_world.
  rewrite (reset_scenario_set _ {| num_dof := dof |}
             {| world_position := [0.6; 0.3; 0.3] |})
    by (try reflexivity; exact Hs).
  destruct (UIPanel._scenario_state_btn p); panel_fields.
  - split; [reflexivity|]. split; [auto|discriminate].
  - split; [reflexivity|]. split; [congruence|auto].
Qed.

Lemma load_world_fresh_witness :
  let r := UIPanel._on_load_world (UIPanel.build_ui UIPanel.__init__) 6 in
  UIPanel.builder (fst (fst r)) = UIPanel.builder (UIPanel.loaded 6) /\
  (UIPanel._scenario_state_btn (UIPanel.build_ui UIPanel.__init__) <> None ->
   fst (fst r) = UIPanel.loaded 6 /\ snd r = Returned) /\
  (UIPanel._scenario_state_btn (UIPanel.build_ui UIPanel.__init__) = None ->
   UIPanel._scenario_state_btn (fst (fst r)) = None /\ snd r = Raised).
Proof.
  apply (load_world_fresh (UIPanel.build_ui UIPanel.__init__) 6).
  exact (UIPanel.reachable_fire UIPanel.__init__ UIPanel.BuildUi
           UIPanel.reachable_init).
Defined.

(** X19. [_on_reset_world] without a world prints that the world is not
    loaded and changes nothing.  With a world, in a panel state the host can
    bring about and with the button built, it restarts the scenario for the
    loaded robot and cuboid in the state a new scenario has after
    [setup_scenario] (running, phase 0), enables the button and returns
    normally. *)
Theorem reset_world_restarts (p : UIPanel.t) :
  (UIBuilder._world (UIPanel.builder p) = None ->
   UIPanel._on_reset_world p =
   (p, [HEvent (EPrint "World not loaded yet!"%string)], Returned)) /\
  (UIPanel.reachable p ->
   UIBuilder._world (UIPanel.builder p) <> None ->
   UIPanel._scenario_state_btn p <> None ->
   exists a c,
     UIBuilder._articulation (UIPanel.builder p) = Some a /\
     UIBuilder._cuboid (UIPanel.builder p) = Some c /\
     fst (fst (UIPanel._on_reset_world p)) =
     UIPanel.mk
       (UIBuilder.mk (Some a) (Some c)
          (fst (setup_scenario ExampleScenario.__init__ a c))
          (UIBuilder._world (UIPanel.builder p)))
       (Some {| enabled := true |}) /\
     snd (UIPanel._on_reset_world p) = Returned).
Proof.
  unfold UIPanel._on_reset_world. split.
  - intros ->. reflexivity.
  - intros Hr Hw Hb.
    destruct (reachable_panel_invariant p Hr) as (Ha & Hc & Hs & _).
    destruct (UIBuilder._world (UIPanel.builder p)) as [w|] eqn:Ew;
      [|congruence].
    destruct (UIBuilder._articulation (UIPanel.builder p)) as [a|] eqn:Ea;
      [|destruct Ha as (_ & Ha); now specialize (Ha eq_refl)].
    destruct (UIBuilder._cuboid (UIPanel.builder p)) as [c|] eqn:Ec;
      [|destruct Hc as (_ & Hc); now specialize (Hc eq_refl)].
    exists a, c. rewrite (reset_scenario_set _ a c Ea Ec Hs), Ew.
    destruct (UIPanel._scenario_state_btn p); [|congruence].
    panel_fields. auto.
Qed.

Lemma loaded_reachable : UIPanel.reachable (UIPanel.loaded 6).
Proof.
  pose proof (UIPanel.reachable_fire _ (UIPanel.LoadClicked 6)
                (UIPanel.reachable_fire _ UIPanel.BuildUi
                   UIPanel.reachable_init)) as H.
  exact H.
Qed.

Lemma reset_world_restarts_witness :
  UIPanel._on_reset_world UIPanel.__init__ =
  (UIPanel.__init__, [HEvent (EPrint "World not loaded yet!"%string)],
   Returned) /\
  exists a c,
    UIBuilder._articulation (UIPanel.builder (UIPanel.loaded 6)) = Some a /\
    UIBuilder._cuboid (UIPanel.builder (UIPanel.loaded 6)) = Some c /\
    fst (fst (UIPanel._on_reset_world (UIPanel.loaded 6))) =
    UIPanel.mk
      (UIBuilder.mk (Some a) (Some c)
         (fst (setup_scenario ExampleScenario.__init__ a c))
         (UIBuilder._world (UIPanel.builder (UIPanel.loaded 6))))
      (Some {| enabled := true |}) /\
    snd (UIPanel._on_reset_world (UIPanel.loaded 6)) = Returned.
Proof.
  split.
  - apply (proj1 (reset_world_restarts UIPanel.__init__)). reflexivity.
  - apply (proj2 (reset_world_restarts (UIPanel.loaded 6))).
    + exact loaded_reachable.
    + discriminate.
    + discriminate.
Defined.

(** X20. A stage-opened event puts the panel back to its initial
    attributes, with the button (if built) reset and disabled; after it a
    physics step does nothing and RESET only reports that no world is
    loaded.  Stage events of another type change nothing and call
    nothing. *)
Theorem stage_opened_resets (p : UIPanel.t) (step : R) (q : Np.ndarray) :
  let p' := fst (fst (UIPanel.on_stage_event p STAGE_OPENED)) in
  UIPanel.builder p' = UIBuilder._on_init /\
  UIPanel._scenario_state_btn p' =
    match UIPanel._scenario_state_btn p with
    | Some _ => Some {| enabled := false |}
    | None => None
    end /\
  UIPanel._update_scenario p' step q = (p', [], Returned) /\
  UIPanel._on_reset_world p' =
    (p', [HEvent (EPrint "World not loaded yet!"%string)], Returned) /\
  UIPanel.on_stage_event p STAGE_CLOSED = (p, [], Returned) /\
  UIPanel.on_stage_event p STAGE_OTHER = (p, [], Returned).
Proof.
  simpl. unfold UIPanel._reset_extension.
  destruct (UIPanel._scenario_state_btn p); repeat split; reflexivity.
Qed.

End Panel.

(** ** The blocking script *)

Section Script.

Import PickPlaceScript.

Lemma handle_cubes_cons (self : PickPlaceScript.t) (cube : string)
    (target : Vec3d) (rest : list (string * Vec3d)) (poses : Poses) :
  handle_cubes self ((cube, target) :: rest) poses =
  (fst (handle_cubes self rest (set_pose poses cube target)),
   [KPrintVec "Moving to pick cube at "%string (poses cube);
    KApplyAction (repeat 0.5 (num_joints (_robot self))); KSleep 1.0;
    KPrint ("Picking cube: " ++ cube)%string;
    KCreateFixedJoint (_robot_path self) cube;
    KPrintVec "Moving to place cube at "%string target;
    KApplyAction (repeat 0.5 (num_joints (_robot self))); KSleep 1.0;
    KPrintVec "Placing cube at "%string target;
    KRemoveFixedJoint cube; KSetWorldPose cube target]
   ++ snd (handle_cubes self rest (set_pose poses cube target))).
Proof.
  simpl. destruct (handle_cubes self rest (set_pose poses cube target)).
  reflexivity.
Qed.

Lemma update_scenario_handle (self : PickPlaceScript.t) (poses : Poses) :
  PickPlaceScript.update_scenario self poses =
  (fst (handle_cubes self (combine (_cubes self) (_target_positions self))
          poses),
   KPrint "Starting pick-and-place operation..."%string
   :: snd (handle_cubes self (combine (_cubes self) (_target_positions self))
             poses)).
Proof.
  unfold PickPlaceScript.update_scenario.
  destruct (handle_cubes self _ poses). reflexivity.
Qed.

Lemma handle_cubes_placements (self : PickPlaceScript.t)
    (pairs : list (string * Vec3d)) (poses : Poses) :
  placements (snd (handle_cubes self pairs poses)) = pairs.
Proof.
  revert poses. induction pairs as [|[cube target] rest IH]; intros poses.
  - reflexivity.
  - rewrite handle_cubes_cons. simpl snd. unfold placements in *.
    simpl. now rewrite IH.
Qed.

Lemma handle_cubes_other (self : PickPlaceScript.t)
    (pairs : list (string * Vec3d)) (poses : Poses) (path : string) :
  ~ In path (map fst pairs) ->
  fst (handle_cubes self pairs poses) path = poses path.
Proof.
  revert poses. induction pairs as [|[cube target] rest IH]; intros poses H.
  - reflexivity.
  - rewrite handle_cubes_cons. simpl fst. simpl in H.
    rewrite IH by tauto. unfold set_pose.
    destruct (String.eqb_spec path cube); [subst; tauto|reflexivity].
Qed.

Lemma handle_cubes_final (self : PickPlaceScript.t)
    (pairs : list (string * Vec3d)) (poses : Poses) (cube : string)
    (target : Vec3d) :
  NoDup (map fst pairs) -> In (cube, target) pairs ->
  fst (handle_cubes self pairs poses) cube = target.
Proof.
  revert poses. induction pairs as [|[c t'] rest IH]; intros poses Hnd Hin.
  - destruct Hin.
  - rewrite handle_cubes_cons. simpl fst. simpl in Hnd.
    inversion Hnd as [|x l Hnot Hnd']; subst.
    destruct Hin as [[= -> ->]|Hin].
    + rewrite handle_cubes_other by exact Hnot.
      unfold set_pose. now rewrite String.eqb_refl.
    + now apply IH.
Qed.

Lemma combine_fst_in (A B : Type) (l : list A) (l' : list B) (x : A) :
  In x (map fst (combine l l')) -> In x l.
Proof.
  intros H. apply in_map_iff in H. destruct H as ((a & b) & <- & H).
  simpl. eapply in_combine_l. exact H.
Qed.

Lemma combine_fst_nodup (A B : Type) (l : list A) (l' : list B) :
  NoDup l -> NoDup (map fst (combine l l')).
Proof.
  intros H. revert l'. induction H as [|x l Hx Hl IH]; intros l'.
  - constructor.
  - destruct l' as [|y l']; simpl; [constructor|].
    constructor; [|apply IH]. intros Hin. apply Hx.
    eapply combine_fst_in. exact Hin.
Qed.

(** X21. One call of the script's [update_scenario] handles the cubes in
    order, as many as there are cubes and targets, and sets each to the
    target at its position in the list.  Prims that are not among the cubes
    keep their pose, and with distinct cubes every handled cube is at its
    target when the call returns. *)
Theorem script_places_cubes (self : PickPlaceScript.t) (poses : Poses) :
  let r := PickPlaceScript.update_scenario self poses in
  placements (snd r) = combine (_cubes self) (_target_positions self) /\
  length (placements (snd r))
  = Nat.min (length (_cubes self)) (length (_target_positions self)) /\
  (forall path, ~ In path (_cubes self) -> fst r path = poses path) /\
  (NoDup (_cubes self) ->
   forall cube target,
     In (cube, target) (combine (_cubes self) (_target_positions self)) ->
     fst r cube = target).
Proof.
  simpl. rewrite update_scenario_handle. simpl fst. simpl snd.
  assert (Hp : placements
                 (KPrint "Starting pick-and-place operation..."%string
                  :: snd (handle_cubes self
                            (combine (_cubes self) (_target_positions self))
                            poses))
               = combine (_cubes self) (_target_positions self))
    by apply handle_cubes_placements.
  split; [exact Hp|]. split; [rewrite Hp; apply length_combine|]. split.
  - intros path H. apply handle_cubes_other. intros Hin. apply H.
    eapply combine_fst_in. exact Hin.
  - intros Hnd cube target Hin. apply handle_cubes_final; [|exact Hin].
    now apply combine_fst_nodup.
Qed.

Lemma script_places_cubes_witness :
  fst (PickPlaceScript.update_scenario (fst (PickPlaceScript.__init__ 6))
         (fun _ => (0, 0, 0))) "/World/Cubes/Pickup_B"%string
  = (0.5, -0.1, 0.8).
Proof.
  apply (proj2 (proj2 (proj2
           (script_places_cubes (fst (PickPlaceScript.__init__ 6))
              (fun _ => (0, 0, 0)))))).
  - simpl. repeat constructor; simpl; intuition discriminate.
  - simpl. right. left. reflexivity.
Defined.

(** X22. In the script every fixed joint is removed before the next one is
    created: the joint calls of one [update_scenario] are, cube after cube,
    a creation between the robot and the cube followed by the removal for
    that cube, so none is left when the call returns. *)
Theorem script_joints_paired (self : PickPlaceScript.t) (poses : Poses) :
  filter is_joint_call (snd (PickPlaceScript.update_scenario self poses)) =
  flat_map
    (fun cube =>
       [KCreateFixedJoint (_robot_path self) cube; KRemoveFixedJoint cube])
    (map fst (combine (_cubes self) (_target_positions self))).
Proof.
  rewrite update_scenario_handle. simpl snd. simpl filter.
  generalize (combine (_cubes self) (_target_positions self)) as pairs.
  intros pairs. revert poses.
  induction pairs as [|[cube target] rest IH]; intros poses.
  - reflexivity.
  - rewrite handle_cubes_cons. simpl snd. simpl. now rewrite IH.
Qed.

(** X23. The arm motion of the script is a placeholder: every command of an
    [update_scenario] sets all joints to 0.5 whatever the positions of the
    cubes and targets, there are two commands per handled cube, and the call
    sleeps one second after each, two seconds per cube in all. *)
Theorem script_dummy_motion (self : PickPlaceScript.t) (poses : Poses) :
  let calls := snd (PickPlaceScript.update_scenario self poses) in
  let handled :=
    Nat.min (length (_cubes self)) (length (_target_positions self)) in
  commands calls
  = repeat (repeat 0.5 (num_joints (_robot self))) (2 * handled) /\
  time_slept calls = 2 * INR handled.
Proof.
  simpl. rewrite update_scenario_handle. simpl snd.
  rewrite <- (length_combine (_cubes self) (_target_positions self)).
  generalize (combine (_cubes self) (_target_positions self)) as pairs.
  intros pairs. unfold commands, time_slept. simpl.
  revert poses. induction pairs as [|[cube target] rest IH]; intros poses.
  - simpl. split; [reflexivity|lra].
  - rewrite handle_cubes_cons. simpl snd.
    destruct (IH (set_pose poses cube target)) as (Hc & Ht).
    change (length ((cube, target) :: rest)) with (S (length rest)).
    rewrite S_INR. simpl. rewrite Hc, Ht.
    replace (length rest + S (length rest + 0))%nat
      with (S (length rest + (length rest + 0)))%nat by lia.
    simpl. split; [reflexivity|lra].
Qed.

End Script.

(** ** The grasp cycle and a negative step, on concrete runs *)

Section ConcreteRuns.

Lemma rewound_state :
  rewound =
  set_phase_time (0.0 + -1) (set_time (0.0 + -1) started).
Proof.
  unfold rewound. rewrite update_scenario_state. simpl.
  unfold advance. simpl.
  destruct (Rge_dec (0.0 + -1) 2.0) as [H|_]; [lra|reflexivity].
Qed.

Lemma smooth_t_minus_half : smooth_t (-0.5) = 0.5.
Proof.
  unfold smooth_t. replace (-0.5 * PI) with (- (PI / 2)) by lra.
  rewrite cos_neg, cos_PI2. lra.
Qed.

(** C6. The code at the failing input.  After [setup_scenario] for a
    six-joint robot and one [update_scenario] with step [-1], the elapsed
    phase time is [-1] and the progress used by [_execute_phase] is [-0.5],
    where [clamp(elapsed / duration, 0, 1)] is 0: the lower bound of the
    claim is not enforced.  The target commanded there is half way to the
    pre-grasp configuration (second joint at [-0.25]) instead of the start
    configuration of the phase (second joint at 0). *)
Theorem negative_step_progress :
  _phase_time rewound = -1 /\
  progress rewound = -0.5 /\
  clamp (_phase_time rewound / _phase_duration rewound) 0 1 = 0 /\
  progress rewound
  <> clamp (_phase_time rewound / _phase_duration rewound) 0 1 /\
  exists home pre_grasp target v,
    phase_endpoints rewound = Some (home, pre_grasp) /\
    _execute_phase rewound (-1) (Np.zeros 6)
      = Some (EApplyAction target v) /\
    nth 1 home 0 = 0 /\ nth 1 target 0 = -0.25.
Proof.
  destruct progress_not_clamped_below as (Hp & Hc & Hne).
  split; [apply rewound_phase_time|]. split; [exact Hp|].
  split; [exact Hc|]. split; [exact Hne|].
  assert (Hcfg : configured rewound 6)
    by (apply configured_update; exact configured_started).
  destruct (execute_phase_target rewound 6 (-1) (Np.zeros 6) Hcfg eq_refl)
    as (a & b & target & Hab & _ & _ & Ht & Hrun).
  exists a, b, target. eexists. split; [exact Hab|]. split; [exact Hrun|].
  rewrite rewound_state in Hab.
  cbv [phase_endpoints started setup_scenario fst _phase Z.eqb
       set_phase_time set_time _home_position _pre_grasp_position bind] in Hab.
  injection Hab as <- <-.
  split; [reflexivity|].
  destruct Ht as [ (_ & Heq) | -> ].
  - exfalso. simpl in Heq. injection Heq. intros. lra.
  - rewrite Hp, smooth_t_minus_half. simpl. lra.
Qed.

(** A callback whose step spans the phase duration moves a running scenario
    to the next phase. *)
Lemma full_step_next (s : ExampleScenario.t) (step : R) (q : Np.ndarray) :
  reachable s -> (_phase s < 7)%Z -> _phase_duration s <= step ->
  0 <= step ->
  _phase (fst (fst (update_scenario s step q))) = (_phase s + 1)%Z.
Proof.
  intros Hr Hp Hd Hs.
  destruct (reachable_invariant s Hr) as (_ & Hrun & _ & Ht).
  rewrite update_scenario_state, Hrun.
  destruct (Z.eqb_spec (_phase s) 7) as [E|_]; [lia|]. simpl.
  destruct (advance_cases s step) as [(_ & H & _)|(Hlt & _)];
    [exact H|lra].
Qed.

Lemma constructed_approaching : constructed approaching.
Proof. apply constructed_update, constructed_setup, constructed_init. Qed.

Lemma reachable_approaching : reachable approaching.
Proof. apply reachable_update; [exact reachable_started|lra]. Qed.

Lemma reachable_grasping : reachable grasping.
Proof. apply reachable_update; [exact reachable_approaching|lra]. Qed.

Lemma reachable_lifting : reachable lifting.
Proof. apply reachable_update; [exact reachable_grasping|lra]. Qed.

Lemma reachable_moving : reachable moving.
Proof. apply reachable_update; [exact reachable_lifting|lra]. Qed.

Lemma phase_approaching : _phase approaching = 1%Z.
Proof. rewrite approaching_state. reflexivity. Qed.

Lemma phase_grasping : _phase grasping = 2%Z.
Proof.
  unfold grasping. rewrite full_step_next; rewrite ?phase_approaching;
    try lia; try lra; [exact reachable_approaching|].
  rewrite (constructed_phase_duration _ constructed_approaching). lra.
Qed.

Lemma phase_lifting : _phase lifting = 3%Z.
Proof.
  unfold lifting. rewrite full_step_next; rewrite ?phase_grasping;
    try lia; try lra; [exact reachable_grasping|].
  rewrite (constructed_phase_duration grasping); [lra|].
  apply constructed_update, constructed_approaching.
Qed.

Lemma phase_moving : _phase moving = 4%Z.
Proof.
  unfold moving. rewrite full_step_next; rewrite ?phase_lifting;
    try lia; try lra; [exact reachable_lifting|].
  rewrite (constructed_phase_duration lifting); [lra|].
  do 2 apply constructed_update. exact constructed_approaching.
Qed.

Lemma phase_after_moving :
  _phase (fst (fst (update_scenario moving 2 (Np.zeros 6)))) = 5%Z.
Proof.
  rewrite full_step_next; rewrite ?phase_moving;
    try lia; try lra; [exact reachable_moving|].
  rewrite (constructed_phase_duration moving); [lra|].
  do 3 apply constructed_update. exact constructed_approaching.
Qed.

(** The callback that enters phase 2 finds the flag clear and leaves it set,
    and moves the cube by [_update_cube_position]; the callback that enters
    phase 5 finds the flag set, clears it and does not move the cube. *)
Lemma cube_grasped_phases_witness :
  (_phase approaching = 1%Z /\ _phase grasping = 2%Z /\
   _cube_grasped approaching = false /\ _cube_grasped grasping = true /\
   exists p,
     In (ESetWorldPose p)
        (snd (fst (update_scenario approaching 2 (Np.zeros 6)))) /\
     _update_cube_position grasping (Np.zeros 6) = Some (ESetWorldPose p)) /\
  (_phase moving = 4%Z /\
   _phase (fst (fst (update_scenario moving 2 (Np.zeros 6)))) = 5%Z /\
   _cube_grasped moving = true /\
   _cube_grasped (fst (fst (update_scenario moving 2 (Np.zeros 6)))) = false
   /\
   Forall (fun e => is_set_world_pose e = false)
          (snd (fst (update_scenario moving 2 (Np.zeros 6))))).
Proof.
  assert (H2 : 0 <= 2) by lra.
  split.
  - destruct (cube_grasped_phases approaching 2 (Np.zeros 6)
                reachable_approaching H2) as (_ & _ & Hset & _ & Hpose).
    fold grasping in Hset, Hpose.
    destruct (Hset phase_approaching phase_grasping) as (Hb & Ha).
    split; [exact phase_approaching|]. split; [exact phase_grasping|].
    split; [exact Hb|]. split; [exact Ha|].
    destruct grasp_tick as (s & v & p & Hrun & _).
    exists p.
    assert (Hin : In (ESetWorldPose p)
                     (snd (fst (update_scenario approaching 2 (Np.zeros 6)))))
      by (rewrite Hrun; simpl; auto).
    split; [exact Hin|]. apply (Hpose _ Hin eq_refl).
  - destruct (cube_grasped_phases moving 2 (Np.zeros 6)
                reachable_moving H2) as (_ & _ & _ & Hclear & Hpose).
    destruct (Hclear phase_moving phase_after_moving) as (Hb & Ha).
    split; [exact phase_moving|]. split; [exact phase_after_moving|].
    split; [exact Hb|]. split; [exact Ha|].
    apply Forall_forall. intros e Hin.
    destruct (is_set_world_pose e) eqn:He; [|reflexivity].
    destruct (Hpose e Hin He) as (Hg & _). congruence.
Defined.

End ConcreteRuns.
